(** * TrendBot: the daily news collection pipeline of [scripts/fetch_news.py]

    A shallow embedding of the script and the proofs of its specification.

    - Python [str] values are sequences of Unicode code points: [list N].
    - [set] of identity keys is a [gset (str * str)], [Dict[str, str]] a
      [gmap str str].
    - Effects (the clock, the query file, the per-day CSV files, HTTP and
      printing) go through a state-and-exception monad [M World]; the state
      survives a raised exception, as a mutated Python object does.
    - What the script takes from libraries is a parameter of the run, kept
      in [Env]: the XML parser, [quote_plus], the clock and the upstream
      server.  The [csv] module is modelled at the level of records (lists
      of fields): the text encoding of a record is its business.

    What the model leaves out; the theorems are about runs in which it does
    not happen:
    - failures of the operations the script does not guard: the existence
      checks of the two files, [print], [time.sleep], and the [mkdir],
      [open] and writes of [append_rows].  In the model they complete;
    - files of the data directory that the [csv] writer could not have
      left: a file is held as its records, each one ended by the line
      terminator the writer puts after it, so a file whose last line is
      not terminated is not a state of the model;
    - text that cannot be encoded as UTF-8. *)

From Stdlib Require Import ZArith NArith String Ascii.
From stdpp Require Import base tactics option list gmap sets.

Set Default Proof Using "Type".
Local Open Scope N_scope.

(** ** Strings *)

Definition char := N.
Definition str := list char.

(** A literal in the source, as code points (ASCII literals only). *)
Definition lit (s : string) : str :=
  List.map N_of_ascii (list_ascii_of_string s).

(** [str.isspace] on one code point: the white space [str.strip] removes. *)
Definition isspace (c : char) : bool :=
  (9 <=? c) && (c <=? 13) || (28 <=? c) && (c <=? 32)
  || (c =? 133) || (c =? 160) || (c =? 5760)
  || (8192 <=? c) && (c <=? 8202)
  || (c =? 8232) || (c =? 8233) || (c =? 8239) || (c =? 8287) || (c =? 12288).

Fixpoint lstrip (s : str) : str :=
  match s with
  | [] => []
  | c :: rest => if isspace c then lstrip rest else s
  end.

Definition rstrip (s : str) : str := reverse (lstrip (reverse s)).

(** [s.strip()] *)
Definition strip (s : str) : str := rstrip (lstrip s).

(** Truth value of a string: [if s], [not s]. *)
Definition truthy (s : str) : bool :=
  match s with [] => false | _ :: _ => true end.

(** [x or ""] for an optional string. *)
Definition or_empty (x : option str) : str := default [] x.

(** [s.startswith(p)] *)
Fixpoint startswith (s p : str) : bool :=
  match p, s with
  | [], _ => true
  | _ :: _, [] => false
  | a :: p', b :: s' => (a =? b) && startswith s' p'
  end.

(** The line boundaries of [str.splitlines]. *)
Definition is_linebreak (c : char) : bool :=
  (10 <=? c) && (c <=? 13) || (28 <=? c) && (c <=? 30)
  || (c =? 133) || (c =? 8232) || (c =? 8233).

(** [s.splitlines()]: [cur] is the line being read, most recent character
    first.  CR LF is one boundary; no empty line follows a final boundary. *)
Fixpoint splitlines_from (cur : str) (s : str) : list str :=
  match s with
  | [] => match cur with [] => [] | _ :: _ => [reverse cur] end
  | c :: rest =>
      if is_linebreak c then
        reverse cur ::
          match rest with
          | c' :: rest' =>
              if (c =? 13) && (c' =? 10) then splitlines_from [] rest'
              else splitlines_from [] rest
          | [] => splitlines_from [] rest
          end
      else splitlines_from (c :: cur) rest
  end.

Definition splitlines (s : str) : list str := splitlines_from [] s.

(** [l[:n]] for a Python integer [n]: a negative [n] counts from the end. *)
Definition slice_to {A} (l : list A) (n : Z) : list A :=
  if (n <? 0)%Z then take (Z.to_nat (Z.of_nat (length l) + n)) l
  else take (Z.to_nat n) l.

Local Close Scope N_scope.

(** ** Exceptions and the monad of effects *)

Inductive exn :=
| ParseError          (* xml.etree.ElementTree.ParseError *)
| ConnectionError     (* requests.ConnectionError *)
| Timeout             (* requests.Timeout *)
| HTTPError           (* requests.HTTPError, from raise_for_status *)
| UnicodeDecodeError
| OSError
| CsvError.           (* csv.Error *)

Inductive outcome (A : Type) :=
| Ok (a : A)
| Raise (e : exn).
Arguments Ok {A} a.
Arguments Raise {A} e.

(** A computation over a mutable state [S]: it returns or raises, and in
    both cases leaves a state behind. *)
Definition M (S A : Type) : Type := S → outcome A * S.

Definition ret {S A} (a : A) : M S A := λ s, (Ok a, s).

Definition bind {S A B} (m : M S A) (k : A → M S B) : M S B :=
  λ s, match m s with
       | (Ok a, s') => k a s'
       | (Raise e, s') => (Raise e, s')
       end.

Definition raise {S A} (e : exn) : M S A := λ s, (Raise e, s).

(** [try: m  except Exception as e: ...]: the outcome of [m], reified. *)
Definition try_ {S A} (m : M S A) : M S (outcome A) :=
  λ s, let '(o, s') := m s in (Ok o, s').

Definition gets {S A} (f : S → A) : M S A := λ s, (Ok (f s), s).
Definition modify {S} (f : S → S) : M S unit := λ s, (Ok tt, f s).

Declare Scope py_scope.
Delimit Scope py_scope with py.
Notation "x <- m ;; k" := (bind m (λ x, k))
  (at level 100, m at next level, right associativity) : py_scope.
Notation "m ;;; k" := (bind m (λ _, k))
  (at level 100, right associativity) : py_scope.
Local Open Scope py_scope.

(** [for x in l: body x] *)
Fixpoint for_each {S A} (l : list A) (body : A → M S unit) : M S unit :=
  match l with
  | [] => ret tt
  | x :: rest => body x ;;; for_each rest body
  end.

(** A loop that carries its local variables in [acc]. *)
Fixpoint for_acc {S A B} (l : list A) (body : B → A → M S B) (acc : B) : M S B :=
  match l with
  | [] => ret acc
  | x :: rest => acc' <- body acc x ;; for_acc rest body acc'
  end.

(** ** The data model *)

(** [NewsItem] *)
Record NewsItem := mkNewsItem {
  query : str;
  title : str;
  link : str;
  published : str;        (* RFC822 string or empty *)
  collected_jst : str;    (* ISO string JST *)
}.

(** [NewsItem.as_row] *)
Definition as_row (self : NewsItem) : gmap str str :=
  list_to_map
    [ (lit "source", lit "GoogleNews:" ++ query self);
      (lit "query", query self);
      (lit "title", title self);
      (lit "link", link self);
      (lit "published", published self);
      (lit "collected_jst", collected_jst self) ].

(** An [xml.etree.ElementTree.Element]: tag, text and children. *)
#[warnings="-register-all"] Inductive Element :=
| mkElement (el_tag : str) (el_text : option str) (el_children : list Element).

Definition el_tag (e : Element) : str := let '(mkElement t _ _) := e in t.
Definition el_text (e : Element) : option str := let '(mkElement _ t _) := e in t.
Definition el_children (e : Element) : list Element :=
  let '(mkElement _ _ c) := e in c.

(** [e.findall(name)], [e.find(name)] and [e.findtext(name)] for a plain tag
    name: the direct children with that tag, in document order. *)
Definition findall (e : Element) (name : str) : list Element :=
  filter (λ c, el_tag c = name) (el_children e).

Definition find (e : Element) (name : str) : option Element :=
  head (findall e name).

Definition findtext (e : Element) (name : str) : option str :=
  c ← find e name; Some (or_empty (el_text c)).

(** A [requests.Response]. *)
Record Response := mkResponse {
  status_code : Z;
  resp_text : str;
}.

(** A calendar date; the dataset of a day is the file
    [data/news_<iso_day(day)>.csv], one per date. *)
Definition date := N.

(** One record of a CSV file, as it stands in the file: the fields of a
    line the writer has written (or could have), or a stretch that makes
    the reader raise when it gets there (undecodable bytes; the whole file,
    when it cannot be opened).  What the reader makes of a record is
    [reader_next] below. *)
Inductive csv_record :=
| Fields (row : list str)
| Broken (e : exn).

Inductive message :=
| MsgDaily (day : date) (queries : nat)
| MsgQuerySource (from_file : bool)
| MsgWarn (q : str) (e : exn)
| MsgOk (i n : nat) (q : str) (got new : nat)
| MsgDone (appended : nat).

Inductive event :=
| EvPrint (m : message)
| EvGet (url : str)
| EvSleep
| EvAppend (day : date) (rows : list (gmap str str)).

(** What a run can observe and change.  A file of the data directory is
    held as the records in it, whole and in order. *)
Record World := mkWorld {
  query_file : option (outcome str);       (* config/queries.txt: absent, or what read_text gives *)
  data_dir : gmap date (list csv_record);  (* data/news_<day>.csv *)
  clock_reads : nat;                       (* readings of the clock so far *)
  http_requests : nat;                     (* GET requests so far *)
  trace : list event;                      (* effects so far, oldest first *)
}.

Definition set_data_dir (f : gmap date (list csv_record) → gmap date (list csv_record))
    (w : World) : World :=
  mkWorld (query_file w) (f (data_dir w)) (clock_reads w) (http_requests w) (trace w).

Definition set_query_file (qf : option (outcome str)) (w : World) : World :=
  mkWorld qf (data_dir w) (clock_reads w) (http_requests w) (trace w).

Definition tick_clock (w : World) : World :=
  mkWorld (query_file w) (data_dir w) (S (clock_reads w)) (http_requests w) (trace w).

Definition count_request (w : World) : World :=
  mkWorld (query_file w) (data_dir w) (clock_reads w) (S (http_requests w)) (trace w).

Definition emit (e : event) (w : World) : World :=
  mkWorld (query_file w) (data_dir w) (clock_reads w) (http_requests w) (trace w ++ [e]).

(** What the script takes from its libraries and its configuration. *)
Record Env := mkEnv {
  ET_fromstring : str → option Element;      (* None: the parser raises *)
  quote_plus : str → str;
  clock_iso : nat → str;                     (* the n-th reading, as ISO text *)
  clock_date : nat → date;                   (* the n-th reading, as a date *)
  upstream : nat → str → outcome Response;   (* the n-th GET, by URL *)
  MAX_ITEMS_PER_QUERY : Z;
}.

Definition DEFAULT_QUERIES : list str :=
  [ [29289; 20385; 32; 39135; 26009; 32; 26085; 26412];
    [31859; 32; 23567; 40614; 32; 20385; 26684];
    [12467; 12531; 12499; 12491; 32; 26032; 21830; 21697] ]%N.

(** [print(...)]: the message goes to the trace.  Standard output takes
    every message: a [print] that raises (an output encoding that cannot
    take the query) is left out of the model. *)
Definition print (m : message) : M World unit := modify (emit (EvPrint m)).

(** ** The script *)

Section Script.
Variable env : Env.

Definition jst_today : M World date :=
  n <- gets clock_reads ;;
  modify tick_clock ;;;
  ret (clock_date env n).

Definition now_jst_iso : M World str :=
  n <- gets clock_reads ;;
  modify tick_clock ;;;
  ret (clock_iso env n).

Definition google_news_rss_url (query lang country : str) : str :=
  let q := quote_plus env query in
  let ceid := country ++ lit ":" ++ lang in
  lit "https://news.google.com/rss/search?q=" ++ q ++ lit "&hl=" ++ lang
    ++ lit "&gl=" ++ country ++ lit "&ceid=" ++ ceid.

(** The loop of [parse_rss] over the items kept by the slice. *)
Fixpoint parse_items (its : list Element) (query : str) (items : list NewsItem)
    : M World (list NewsItem) :=
  match its with
  | [] => ret items
  | it :: rest =>
      let title := strip (or_empty (findtext it (lit "title"))) in
      let link := strip (or_empty (findtext it (lit "link"))) in
      let pub := strip (or_empty (findtext it (lit "pubDate"))) in
      if negb (truthy title) then parse_items rest query items
      else
        now <- now_jst_iso ;;
        parse_items rest query (items ++ [mkNewsItem query title link pub now])
  end.

Definition parse_rss (xml_text query : str) (max_items : Z) : M World (list NewsItem) :=
  let items := [] in
  root <- try_ (match ET_fromstring env xml_text with
                | Some root => ret root
                | None => raise ParseError
                end) ;;
  match root with
  | Raise _ => ret items
  | Ok root =>
      match find root (lit "channel") with
      | None => ret items
      | Some channel =>
          parse_items (slice_to (findall channel (lit "item")) max_items) query items
      end
  end.

(** The loop of [load_queries_from_file]. *)
Fixpoint query_lines (lines : list str) (out : list str) : list str :=
  match lines with
  | [] => out
  | l :: rest =>
      let s := strip l in
      if negb (truthy s) then query_lines rest out
      else if startswith s (lit "#") then query_lines rest out
      else query_lines rest (out ++ [s])
  end.

(** [load_queries_from_file(QUERY_FILE)] *)
Definition load_queries_from_file : M World (list str) :=
  qf <- gets query_file ;;
  match qf with
  | None => ret []
  | Some (Raise e) => raise e      (* path.read_text raises *)
  | Some (Ok text) => ret (query_lines (splitlines text) [])
  end.

(** The queries of a run: the file's, or the built-in ones when it gives
    none ([if not queries: queries = DEFAULT_QUERIES]). *)
Definition load_queries : M World (list str) :=
  queries <- load_queries_from_file ;;
  match queries with
  | [] => ret DEFAULT_QUERIES
  | _ :: _ => ret queries
  end.

(** A row of [csv.DictReader]: [dict(zip(fieldnames, row))], the missing
    cells of a short row set to [None]. *)
Definition DictReader_row (fieldnames row : list str) : gmap str (option str) :=
  foldl (λ d kv, <[kv.1 := kv.2]> d) ∅
    (zip fieldnames
       ((Some <$> row) ++ replicate (length fieldnames - length row) None)).

(** [r.get(k) or ""] on such a row. *)
Definition get_or_empty (r : gmap str (option str)) (k : str) : str :=
  or_empty (mjoin (r !! k)).

(** [csv.field_size_limit()]: the reader raises [csv.Error] on a field of
    more characters.  The script never changes it; the writer has no such
    limit. *)
Definition field_size_limit : N := 131072%N.

Definition field_ok (f : str) : bool :=
  (N.of_nat (length f) <=? field_size_limit)%N.

(** [next(reader)] on one record of the file: its fields, or the exception
    the reader raises there. *)
Definition reader_next (r : csv_record) : outcome (list str) :=
  match r with
  | Broken e => Raise e
  | Fields row => if forallb field_ok row then Ok row else Raise CsvError
  end.

(** The body of [for r in reader] in [read_existing_set], over the records
    after the header; the state is the set [seen].  [DictReader] passes over
    the records without a field (blank lines). *)
Fixpoint read_rows (fieldnames : list str) (records : list csv_record)
    : M (gset (str * str)) unit :=
  match records with
  | [] => ret tt
  | record :: rest =>
      match reader_next record with
      | Raise e => raise e
      | Ok [] => read_rows fieldnames rest
      | Ok row =>
          let r := DictReader_row fieldnames row in
          let t := strip (get_or_empty r (lit "title")) in
          let l := strip (get_or_empty r (lit "link")) in
          (if truthy t && truthy l then modify (λ seen, {[ (t, l) ]} ∪ seen)
           else ret tt) ;;;
          read_rows fieldnames rest
      end
  end.

(** The first record gives the field names. *)
Definition read_records (records : list csv_record) : M (gset (str * str)) unit :=
  match records with
  | [] => ret tt
  | record :: rest =>
      match reader_next record with
      | Raise e => raise e
      | Ok fieldnames => read_rows fieldnames rest
      end
  end.

(** [read_existing_set(csv_path)].  [data_dir w !! csv_path] is what
    [csv_path.exists()] and the open find: no file, or the records of the
    file.  The existence check stands before the [try]: a check that itself
    raises (a directory that cannot be searched) is not a state of the
    [World], and nothing here is said of it. *)
Definition read_existing_set (csv_path : date) : M World (gset (str * str)) :=
  file <- gets (λ w, data_dir w !! csv_path) ;;
  match file with
  | None => ret ∅
  | Some records =>
      (* try: ... except Exception: pass *)
      let '(_, seen) := try_ (read_records records) ∅ in
      ret seen
  end.

Definition header : list str :=
  [lit "source"; lit "query"; lit "title"; lit "link"; lit "published";
   lit "collected_jst"].

(** One record written at the end of the file, which opening for append
    has created when it was missing.  The record stands after those of the
    file, which end with their line terminator; the writer takes fields of
    any length, also those the reader will refuse. *)
Definition writerow (csv_path : date) (row : list str) : M World unit :=
  modify (set_data_dir (λ d, <[csv_path := default [] (d !! csv_path) ++ [Fields row]]> d)).

Definition open_append (csv_path : date) : M World unit :=
  modify (set_data_dir (λ d, <[csv_path := default [] (d !! csv_path)]> d)).

(** [append_rows(csv_path, rows)], for a directory and a file that can be
    written: the [mkdir], the [open] and the writes complete. *)
Definition append_rows (csv_path : date) (rows : list (gmap str str)) : M World unit :=
  modify (emit (EvAppend csv_path rows)) ;;;
  file_exists <- gets (λ w, bool_decide (is_Some (data_dir w !! csv_path))) ;;
  open_append csv_path ;;;
  (if negb file_exists then writerow csv_path header else ret tt) ;;;
  for_each rows (λ r, writerow csv_path ((λ k, default [] (r !! k)) <$> header)).

Definition session_get (url : str) : M World Response :=
  n <- gets http_requests ;;
  modify (λ w, emit (EvGet url) (count_request w)) ;;;
  match upstream env n url with
  | Ok r => ret r
  | Raise e => raise e
  end.

Definition raise_for_status (r : Response) : M World unit :=
  if ((400 <=? status_code r) && (status_code r <? 600))%Z then raise HTTPError
  else ret tt.

(** The duplicate filter of [collect_daily] (title + link). *)
Fixpoint dedup (items : list NewsItem) (seen : gset (str * str))
    (new_items : list NewsItem) : gset (str * str) * list NewsItem :=
  match items with
  | [] => (seen, new_items)
  | it :: rest =>
      let key := (title it, link it) in
      if decide (key ∈ seen) then dedup rest seen new_items
      else dedup rest ({[ key ]} ∪ seen) (new_items ++ [it])
  end.

(** The body of the loop over the queries; its local variables are [seen]
    and [all_new_rows].  The [try] covers the request, the status check and
    the parser; the two [print]s and the pause stand outside it, and
    complete in the model ([time.sleep] with a delay that is not
    negative). *)
Definition query_step (n : nat) (acc : gset (str * str) * list (gmap str str))
    (iq : nat * str) : M World (gset (str * str) * list (gmap str str)) :=
  let '(seen, all_new_rows) := acc in
  let '(i, q) := iq in
  let url := google_news_rss_url q (lit "ja") (lit "JP") in
  fetched <- try_ (r <- session_get url ;;
                   raise_for_status r ;;;
                   parse_rss (resp_text r) q (MAX_ITEMS_PER_QUERY env)) ;;
  items <- match fetched with
           | Ok items => ret items
           | Raise e => print (MsgWarn q e) ;;; ret []
           end ;;
  let '(seen, new_items) := dedup items seen [] in
  let all_new_rows := all_new_rows ++ (as_row <$> new_items) in
  print (MsgOk i n q (length items) (length new_items)) ;;;
  modify (emit EvSleep) ;;;
  ret (seen, all_new_rows).

(** [collect_daily] up to the end of the loop: the day and the rows to
    append. *)
Definition gather (day : option date) : M World (date * list (gmap str str)) :=
  day <- match day with Some d => ret d | None => jst_today end ;;
  let out_csv := day in
  queries <- load_queries ;;
  seen <- read_existing_set out_csv ;;
  let all_new_rows := [] in
  print (MsgDaily day (length queries)) ;;;
  from_file <- gets (λ w, bool_decide (is_Some (query_file w))) ;;
  print (MsgQuerySource from_file) ;;;
  acc <- for_acc (zip (seq 1 (length queries)) queries)
                 (query_step (length queries)) (seen, all_new_rows) ;;
  ret (out_csv, acc.2).

(** The end of [collect_daily]: the write, if there is anything to write. *)
Definition finish (out_csv : date) (all_new_rows : list (gmap str str)) : M World date :=
  match all_new_rows with
  | [] => ret tt
  | _ :: _ => append_rows out_csv all_new_rows
  end ;;;
  print (MsgDone (length all_new_rows)) ;;;
  ret out_csv.

Definition collect_daily (day : option date) : M World date :=
  b <- gather day ;;
  finish b.1 b.2.

End Script.

(** ** The parser *)

(** A feed entry as the parser reads it: title, link and publication date,
    trimmed. *)
Definition entry : Type := str * str * str.

Definition entry_of (it : Element) : entry :=
  (strip (or_empty (findtext it (lit "title"))),
   strip (or_empty (findtext it (lit "link"))),
   strip (or_empty (findtext it (lit "pubDate")))).

Definition has_title (e : entry) : bool := truthy e.1.1.

(** The cap on the raw items first, the filter on titles after it. *)
Definition capped_entries (items : list Element) (max_items : Z) : list entry :=
  List.filter has_title (entry_of <$> slice_to items max_items).

(** The raw items of a feed text: none when it is not XML or has no channel. *)
Definition raw_items (env : Env) (xml_text : str) : list Element :=
  match ET_fromstring env xml_text with
  | None => []
  | Some root =>
      match find root (lit "channel") with
      | None => []
      | Some channel => findall channel (lit "item")
      end
  end.

(** The records of entries read from clock reading [c] on. *)
Fixpoint stamp (env : Env) (q : str) (c : nat) (es : list entry) : list NewsItem :=
  match es with
  | [] => []
  | e :: rest => mkNewsItem q e.1.1 e.1.2 e.2 (clock_iso env c) :: stamp env q (S c) rest
  end.

Definition advance_clock (k : nat) (w : World) : World :=
  mkWorld (query_file w) (data_dir w) (clock_reads w + k) (http_requests w) (trace w).


(** ** The day store, read *)

(** The records a reader delivers before it stops: all of them, or those
    before the first one that makes it raise. *)
Fixpoint delivered (records : list csv_record) : list (list str) :=
  match records with
  | [] => []
  | record :: rest =>
      match reader_next record with
      | Ok row => row :: delivered rest
      | Raise _ => []
      end
  end.

(** Whether the reader raises on the way. *)
Fixpoint reader_raises (records : list csv_record) : bool :=
  match records with
  | [] => false
  | record :: rest =>
      match reader_next record with
      | Ok _ => reader_raises rest
      | Raise _ => true
      end
  end.

(** The identity key the index takes from one row, if it takes one. *)
Definition seed_key (fieldnames row : list str) : option (str * str) :=
  let r := DictReader_row fieldnames row in
  let t := strip (get_or_empty r (lit "title")) in
  let l := strip (get_or_empty r (lit "link")) in
  if truthy t && truthy l then Some (t, l) else None.

Definition existing_keys (records : list csv_record) : list (str * str) :=
  match delivered records with
  | [] => []
  | fieldnames :: rows => omap (seed_key fieldnames) rows
  end.

Definition existing_set (file : option (list csv_record)) : gset (str * str) :=
  match file with
  | None => ∅
  | Some records => list_to_set (existing_keys records)
  end.

(** ** The queries *)

Definition usable (s : str) : bool := truthy s && negb (startswith s (lit "#")).

(** The lines of the query file that count: trimmed, not blank, not a
    comment; in file order. *)
Definition usable_lines (text : str) : list str :=
  List.filter usable (strip <$> splitlines text).

Definition queries_of (qf : option (outcome str)) : list str :=
  match qf with
  | Some (Ok text) =>
      match usable_lines text with
      | [] => DEFAULT_QUERIES
      | (_ :: _) as qs => qs
      end
  | _ => DEFAULT_QUERIES
  end.

(** ** One run, as a function *)

(** What the server's answer to the [n]-th request, for query [q], gives the
    run: nothing on a failure. *)
Definition response_entries (env : Env) (n : nat) (q : str) : list entry :=
  match upstream env n (google_news_rss_url env q (lit "ja") (lit "JP")) with
  | Raise _ => []
  | Ok r =>
      if ((400 <=? status_code r) && (status_code r <? 600))%Z then []
      else capped_entries (raw_items env (resp_text r)) (MAX_ITEMS_PER_QUERY env)
  end.

(** The identity key of a record. *)
Definition item_key (it : NewsItem) : str * str := (title it, link it).

(** The records the duplicate filter keeps. *)
Fixpoint fresh (seen : gset (str * str)) (items : list NewsItem) : list NewsItem :=
  match items with
  | [] => []
  | it :: rest =>
      if decide (item_key it ∈ seen) then fresh seen rest
      else it :: fresh ({[ item_key it ]} ∪ seen) rest
  end.

(** The candidate records of a run, query after query, from clock reading
    [c] and request [n] on. *)
Fixpoint candidates (env : Env) (c n : nat) (qs : list str) : list NewsItem :=
  match qs with
  | [] => []
  | q :: rest =>
      let es := response_entries env n q in
      stamp env q c es ++ candidates env (c + length es) (S n) rest
  end.

Definition target_day (env : Env) (day : option date) (w : World) : date :=
  match day with
  | Some d => d
  | None => clock_date env (clock_reads w)
  end.

Definition clock_after_day (day : option date) (w : World) : nat :=
  match day with
  | Some _ => clock_reads w
  | None => S (clock_reads w)
  end.

Definition run_candidates (env : Env) (day : option date) (w : World) : list NewsItem :=
  candidates env (clock_after_day day w) (http_requests w) (queries_of (query_file w)).

(** The records a run keeps, and the rows it hands to [append_rows]. *)
Definition kept_of (env : Env) (day : option date) (w : World) : list NewsItem :=
  fresh (existing_set (data_dir w !! target_day env day w)) (run_candidates env day w).

Definition batch_of (env : Env) (day : option date) (w : World) : list (gmap str str) :=
  as_row <$> kept_of env day w.

(** The cells [DictWriter] writes for a row. *)
Definition row_cells (r : gmap str str) : list str :=
  (λ k, default [] (r !! k)) <$> header.

(** A file after [append_rows]. *)
Definition store_rows (file : option (list csv_record)) (rows : list (gmap str str))
    : list csv_record :=
  match file with
  | None => [Fields header]
  | Some records => records
  end ++ ((λ r, Fields (row_cells r)) <$> rows).

(** The data directory after a run. *)
Definition next_data_dir (env : Env) (day : option date) (w : World)
    : gmap date (list csv_record) :=
  match query_file w with
  | Some (Raise _) => data_dir w
  | _ =>
      match batch_of env day w with
      | [] => data_dir w
      | (_ :: _) as rows =>
          let d := target_day env day w in
          <[d := store_rows (data_dir w !! d) rows]> (data_dir w)
      end
  end.

Definition is_append (e : event) : bool :=
  match e with EvAppend _ _ => true | _ => false end.

(** The calls of [append_rows] in a trace. *)
Definition appends (t : list event) : list event := List.filter is_append t.

(** A stretch of a run that leaves the files alone. *)
Definition quiet (w w' : World) (reads requests : nat) : Prop :=
  query_file w' = query_file w ∧ data_dir w' = data_dir w ∧
  clock_reads w' = clock_reads w + reads ∧
  http_requests w' = http_requests w + requests ∧
  appends (trace w') = appends (trace w).

(** The same, without the counters. *)
Definition calm (w w' : World) : Prop :=
  query_file w' = query_file w ∧ data_dir w' = data_dir w ∧
  appends (trace w') = appends (trace w).

(** ** The dataset of a day *)

(** The identity key of a persisted row: its title and link columns. *)
Definition row_key (row : list str) : str * str :=
  (default [] (row !! 2), default [] (row !! 3)).

(** The rows of a day's file: its records after the header. *)
Definition data_rows (records : list csv_record) : list (list str) :=
  omap (λ r, match r with Fields row => Some row | Broken _ => None end) (tail records).

(** A key with a link. *)
Definition linked (k : str * str) : Prop := k.2 ≠ [].

Global Instance linked_dec k : Decision (linked k).
Proof. unfold linked. apply _. Defined.

(** What the parser guarantees of a record. *)
Definition item_ok (it : NewsItem) : Prop :=
  title it ≠ [] ∧ strip (title it) = title it ∧ strip (link it) = link it.

(** What a run guarantees of a row it writes. *)
Definition row_ok (row : list str) : Prop :=
  length row = 6 ∧ (row_key row).1 ≠ [] ∧
  strip (row_key row).1 = (row_key row).1 ∧ strip (row_key row).2 = (row_key row).2.

(** A row the reader takes: no field over the limit. *)
Definition row_short (row : list str) : Prop := forallb field_ok row = true.

Global Instance row_short_dec row : Decision (row_short row).
Proof. unfold row_short. apply _. Defined.

(** The invariant of a day's file: the header, then rows as runs write them;
    and, when the reader takes them all, no two of those that have a link
    with the same key. *)
Definition day_ok (records : list csv_record) : Prop :=
  ∃ rows, records = Fields header :: (Fields <$> rows) ∧ Forall row_ok rows
          ∧ (Forall row_short rows → NoDup (filter linked (row_key <$> rows))).

Definition dir_ok (dd : gmap date (list csv_record)) : Prop :=
  ∀ d records, dd !! d = Some records → day_ok records.

(** ** Sequences of runs *)

(** Between two runs the query file may change; a run is [collect_daily] in
    the environment of its day. *)
Inductive step : World → World → Prop :=
| step_run env day w : step w (collect_daily env day w).2
| step_edit qf w : step w (set_query_file qf w).

(** The worlds that runs lead to from one where no dataset exists: every
    file of the data directory is one the script has written. *)
Definition reachable (w : World) : Prop :=
  ∃ w0, data_dir w0 = ∅ ∧ rtc step w0 w.

(** ** Statements about the dataset *)

(** No two rows share the identity key. *)
Definition no_shared_key (rows : list (list str)) : Prop :=
  ∀ i j r1 r2, rows !! i = Some r1 → rows !! j = Some r2 →
               row_key r1 = row_key r2 → i = j.

(** The rows of day [d] in a world. *)
Definition day_rows (w : World) (d : date) : list (list str) :=
  data_rows (default [] (data_dir w !! d)).

(** The upstream answers do not depend on when it is asked. *)
Definition fixed_upstream (env : Env) : Prop :=
  ∀ n m url, upstream env n url = upstream env m url.

(** The query file can be read (or is absent). *)
Definition readable (w : World) : Prop := ∀ e, query_file w ≠ Some (Raise e).

(** Loading the index fails: no file, or the reader raises. *)
Definition load_fails (w : World) (d : date) : Prop :=
  match data_dir w !! d with
  | None => True
  | Some records => reader_raises records = true
  end.

(** ** Example feeds and worlds *)

Definition rss_item (t l p : str) : Element :=
  mkElement (lit "item") None
    [ mkElement (lit "title") (Some t) [];
      mkElement (lit "link") (Some l) [];
      mkElement (lit "pubDate") (Some p) [] ].

Definition rss_feed (items : list Element) : Element :=
  mkElement (lit "rss") None [ mkElement (lit "channel") None items ].

Definition url_of (q : str) : str :=
  lit "https://news.google.com/rss/search?q=" ++ q ++ lit "&hl=ja&gl=JP&ceid=JP:ja".

(** An environment whose server answers [A] and [B] with the two feeds of
    the scenario of the specification, and any other query with a 404. *)
Definition env_AB : Env :=
  mkEnv
    (λ s, if decide (s = lit "<feed A>") then
            Some (rss_feed [ rss_item (lit "T1") (lit "L1") (lit "Mon");
                             rss_item (lit "T2") (lit "L2") (lit "Tue") ])
          else if decide (s = lit "<feed B>") then
            Some (rss_feed [ rss_item (lit "T1") (lit "L1") (lit "Mon");
                             rss_item (lit " ") (lit "L3") (lit "Wed") ])
          else None)
    (λ q, q)
    (λ n, lit "2024-05-01T09:00:0" ++ [N.of_nat (48 + n)])
    (λ _, 20240501%N)
    (λ _ url, if decide (url = url_of (lit "A")) then Ok (mkResponse 200 (lit "<feed A>"))
              else if decide (url = url_of (lit "B")) then Ok (mkResponse 200 (lit "<feed B>"))
              else Ok (mkResponse 404 []))
    60.

(** An environment whose server answers every query with one entry that has
    a title and no link. *)
Definition env_nolink : Env :=
  mkEnv
    (λ s, Some (rss_feed [ mkElement (lit "item") None
                             [ mkElement (lit "title") (Some (lit "T")) [] ] ]))
    (λ q, q)
    (λ n, lit "2024-05-01T09:00:0" ++ [N.of_nat (48 + n)])
    (λ _, 20240501%N)
    (λ _ _, Ok (mkResponse 200 (lit "<feed>")))
    60.

(** No dataset yet; the query file lists [A] and [B] after a comment. *)
Definition w_AB : World :=
  mkWorld (Some (Ok (lit "# queries" ++ [10%N] ++ lit "A" ++ [13%N; 10%N] ++ lit "  B  " ++ [10%N])))
          ∅ 0 0 [].

(** No dataset yet; the query file lists the single query [Q]. *)
Definition w_Q : World := mkWorld (Some (Ok (lit "Q"))) ∅ 0 0 [].

(** No dataset and no query file. *)
Definition w_fresh : World := mkWorld None ∅ 0 0 [].

(** A query file that is not UTF-8 text. *)
Definition w_unreadable : World := mkWorld (Some (Raise UnicodeDecodeError)) ∅ 0 0 [].

(** A day file whose third record cannot be read. *)
Definition w_broken : World :=
  mkWorld None
    {[ 20240501%N :=
         [ Fields header;
           Fields [lit "GoogleNews:A"; lit "A"; lit "T1"; lit "L1"; lit "Mon"; lit "now"];
           Broken CsvError;
           Fields [lit "GoogleNews:A"; lit "A"; lit "T2"; lit "L2"; lit "Tue"; lit "now"] ] ]}
    0 0 [].

(** A feed of three entries, the first without a title. *)
Definition env_blank_first : Env :=
  mkEnv
    (λ s, Some (rss_feed [ rss_item (lit "  ") (lit "L0") [];
                           rss_item (lit "T1") (lit "L1") [];
                           rss_item (lit "T2") (lit "L2") [] ]))
    (λ q, q) (λ _, lit "now") (λ _, 20240501%N)
    (λ _ _, Ok (mkResponse 200 (lit "<feed>")))
    2.

(** The world after one run, and after two, against the feed that has a
    title and no link. *)
Definition w_nolink_once : World :=
  (collect_daily env_nolink (Some 20240501%N) w_Q).2.

Definition w_nolink_twice : World :=
  (collect_daily env_nolink (Some 20240501%N) w_nolink_once).2.

(** ** More examples *)

(** An upstream that is down: every request times out. *)
Definition env_down : Env :=
  mkEnv (λ _, None) (λ q, q) (λ _, lit "now") (λ _, 20240501%N)
        (λ _ _, Raise Timeout) 60.

(** The request of query [q] fails with [e]: the transport raises, or the
    status makes [raise_for_status] raise. *)
Definition request_fails (env : Env) (n : nat) (q : str) (e : exn) : Prop :=
  match upstream env n (google_news_rss_url env q (lit "ja") (lit "JP")) with
  | Raise e' => e = e'
  | Ok r => (400 ≤ status_code r < 600)%Z ∧ e = HTTPError
  end.

Definition is_get (e : event) : bool :=
  match e with EvGet _ => true | _ => false end.

Definition is_sleep (e : event) : bool :=
  match e with EvSleep => true | _ => false end.

(** The requests and the pauses of a trace, in the order of the trace. *)
Definition pacing (t : list event) : list event :=
  List.filter (λ e, is_get e || is_sleep e) t.

(** A title of 131073 characters: one more than the reader takes in a
    field. *)
Definition long_title : str := replicate (N.to_nat 131073) 65%N.

(** An environment whose server answers every query with one entry, of
    title [t] and link [l]. *)
Definition env_one (t l : str) : Env :=
  mkEnv (λ _, Some (rss_feed [rss_item t l []])) (λ q, q) (λ _, lit "now")
        (λ _, 20240501%N) (λ _ _, Ok (mkResponse 200 (lit "<feed>"))) 60.

(** The record of that entry for the query [Q], and the row written for
    it. *)
Definition item_one (t l : str) : NewsItem :=
  mkNewsItem (lit "Q") t l [] (lit "now").

Definition row_one (t l : str) : list str :=
  [lit "GoogleNews:Q"; lit "Q"; t; l; []; lit "now"].

(** The world after one run, and after two, against a feed whose entry has
    a link and the long title. *)
Definition w_long_once : World :=
  (collect_daily (env_one long_title (lit "L")) (Some 20240501%N) w_Q).2.

Definition w_long_twice : World :=
  (collect_daily (env_one long_title (lit "L")) (Some 20240501%N) w_long_once).2.

(** The file of the day exists and is empty: not a file that runs leave. *)
Definition w_empty_file : World :=
  mkWorld (Some (Ok (lit "Q"))) {[ 20240501%N := [] ]} 0 0 [].

Definition w_empty_file_once : World :=
  (collect_daily (env_one (lit "T") (lit "L")) (Some 20240501%N) w_empty_file).2.

Definition w_empty_file_twice : World :=
  (collect_daily (env_one (lit "T") (lit "L")) (Some 20240501%N) w_empty_file_once).2.

(** ** Facts about strings *)

Lemma truthy_true (s : str) : truthy s = true ↔ s ≠ [].
Proof. destruct s; simpl; split; congruence. Qed.

Lemma truthy_false (s : str) : truthy s = false ↔ s = [].
Proof. destruct s; simpl; split; congruence. Qed.

(** [lstrip] drops a prefix of white space and stops at the first other
    character. *)
Lemma lstrip_split (s : str) :
  ∃ ws, s = ws ++ lstrip s ∧ forallb isspace ws = true.
Proof.
  induction s as [|c s IH]; simpl.
  - by exists [].
  - destruct (isspace c) eqn:Hc.
    + destruct IH as (ws & Hs & Hws). exists (c :: ws). simpl.
      rewrite Hc, Hws. split; [by f_equal | done].
    + by exists [].
Qed.

Lemma lstrip_head (s : str) c rest : lstrip s = c :: rest → isspace c = false.
Proof.
  induction s as [|a s IH]; simpl; [done|].
  destruct (isspace a) eqn:Ha; [done|]. by intros [= <- _].
Qed.

Lemma lstrip_fix (s : str) c rest : s = c :: rest → isspace c = false → lstrip s = s.
Proof. intros -> Hc. simpl. by rewrite Hc. Qed.

Lemma lstrip_idem (s : str) : lstrip (lstrip s) = lstrip s.
Proof.
  destruct (lstrip s) as [|c rest] eqn:E; [done|].
  eapply lstrip_fix; [done|]. by eapply lstrip_head.
Qed.

Lemma lstrip_spaces (ws s : str) :
  forallb isspace ws = true → lstrip (ws ++ s) = lstrip s.
Proof.
  induction ws as [|c ws IH]; simpl; [done|].
  intros [Hc Hws]%andb_prop. rewrite Hc. auto.
Qed.

Lemma lstrip_app_keep (s t : str) c rest :
  lstrip s = c :: rest → lstrip (s ++ t) = lstrip s ++ t.
Proof.
  induction s as [|a s IH]; simpl; [done|].
  destruct (isspace a); [done|]. done.
Qed.

Lemma lstrip_nil (s : str) : lstrip s = [] ↔ forallb isspace s = true.
Proof.
  induction s as [|c s IH]; simpl; [done|].
  destruct (isspace c); simpl; [done|]. split; congruence.
Qed.

Lemma rstrip_idem (s : str) : rstrip (rstrip s) = rstrip s.
Proof. unfold rstrip. by rewrite reverse_involutive, lstrip_idem. Qed.

(** What [rstrip] keeps of a string that starts with a character that is
    not white space starts with the same character. *)
Lemma rstrip_keeps_head (c : char) (rest : str) :
  isspace c = false → ∃ rest', rstrip (c :: rest) = c :: rest'.
Proof.
  intros Hc. unfold rstrip. rewrite reverse_cons.
  destruct (lstrip (reverse rest)) as [|a r] eqn:E.
  - apply lstrip_nil in E. rewrite lstrip_spaces by done. simpl. rewrite Hc.
    by exists [].
  - rewrite (lstrip_app_keep _ _ a r E), E, reverse_app. simpl.
    by eexists.
Qed.

Lemma lstrip_rstrip_lstrip (s : str) : lstrip (rstrip (lstrip s)) = rstrip (lstrip s).
Proof.
  destruct (lstrip s) as [|c rest] eqn:E; [done|].
  destruct (rstrip_keeps_head c rest (lstrip_head _ _ _ E)) as [rest' ->].
  simpl. by rewrite (lstrip_head _ _ _ E).
Qed.

(** Trimming twice is trimming once. *)
Lemma strip_idem (s : str) : strip (strip s) = strip s.
Proof. unfold strip. by rewrite lstrip_rstrip_lstrip, rstrip_idem. Qed.

Lemma forallb_reverse {A} (f : A → bool) (l : list A) :
  forallb f (reverse l) = forallb f l.
Proof.
  induction l as [|a l IH]; simpl; [done|].
  rewrite reverse_cons, forallb_app, IH. simpl. rewrite andb_true_r. apply andb_comm.
Qed.

(** A string trims to the empty string exactly when it is empty or made of
    white space only. *)
Lemma strip_nil (s : str) : strip s = [] ↔ forallb isspace s = true.
Proof.
  unfold strip, rstrip. split.
  - intros H. apply (f_equal reverse) in H. rewrite reverse_involutive in H.
    simpl in H. apply lstrip_nil in H.
    rewrite forallb_reverse in H.
    destruct (lstrip_split s) as (ws & Hs & Hws).
    set (t := lstrip s) in *. rewrite Hs, forallb_app, Hws, H. done.
  - intros H. apply lstrip_nil in H. by rewrite H.
Qed.

Lemma strip_fixed_not_space (s : str) :
  strip s = s → s ≠ [] → forallb isspace s = false.
Proof.
  intros Hs Hne. destruct (forallb isspace s) eqn:E; [|done].
  apply strip_nil in E. congruence.
Qed.

(** ** Facts about the monad *)

Lemma bind_ok {S A B} (m : M S A) (k : A → M S B) s a s' :
  m s = (Ok a, s') → bind m k s = k a s'.
Proof. unfold bind. by intros ->. Qed.

Lemma bind_raise {S A B} (m : M S A) (k : A → M S B) s e s' :
  m s = (Raise e, s') → bind m k s = (Raise e, s').
Proof. unfold bind. by intros ->. Qed.

Lemma bind_gets {S A B} (f : S → A) (k : A → M S B) s : bind (gets f) k s = k (f s) s.
Proof. done. Qed.

Lemma bind_modify {S B} (f : S → S) (k : unit → M S B) s :
  bind (modify f) k s = k tt (f s).
Proof. done. Qed.

Lemma bind_print {B} m (k : unit → M World B) w :
  bind (print m) k w = k tt (emit (EvPrint m) w).
Proof. done. Qed.

Lemma try_eq {S A} (m : M S A) s : try_ m s = (Ok (m s).1, (m s).2).
Proof. unfold try_. by destruct (m s). Qed.

(** ** The parser *)

Lemma advance_clock_0 w : advance_clock 0 w = w.
Proof. destruct w. unfold advance_clock. simpl. f_equal. lia. Qed.

Lemma advance_clock_S k w : advance_clock k (tick_clock w) = advance_clock (S k) w.
Proof. unfold advance_clock, tick_clock. simpl. f_equal. lia. Qed.

Lemma slice_to_nil {A} n : slice_to (@nil A) n = [].
Proof. unfold slice_to. destruct (n <? 0)%Z; by rewrite take_nil. Qed.

Lemma length_stamp env q c es : length (stamp env q c es) = length es.
Proof. revert c. induction es; simpl; intros; f_equal; auto. Qed.

Lemma parse_items_eq env its q items w :
  parse_items env its q items w =
    (Ok (items ++ stamp env q (clock_reads w) (List.filter has_title (entry_of <$> its))),
     advance_clock (length (List.filter has_title (entry_of <$> its))) w).
Proof.
  revert items w. induction its as [|it its IH]; intros items w.
  - simpl. unfold ret. by rewrite app_nil_r, advance_clock_0.
  - change (parse_items env (it :: its) q items w) with
      ((if negb (has_title (entry_of it)) then parse_items env its q items
        else now <- now_jst_iso env ;;
             parse_items env its q
               (items ++ [mkNewsItem q (entry_of it).1.1 (entry_of it).1.2
                            (entry_of it).2 now])) w).
    rewrite fmap_cons. simpl List.filter.
    destruct (has_title (entry_of it)); cbn [negb]; cbv beta iota.
    + unfold now_jst_iso, bind, gets, modify, ret. cbv beta iota. rewrite IH.
      cbn [stamp length clock_reads tick_clock].
      by rewrite <- app_assoc, advance_clock_S.
    + apply IH.
Qed.

Lemma parse_rss_eq env xml_text q max_items w :
  parse_rss env xml_text q max_items w =
    (Ok (stamp env q (clock_reads w) (capped_entries (raw_items env xml_text) max_items)),
     advance_clock (length (capped_entries (raw_items env xml_text) max_items)) w).
Proof.
  unfold parse_rss, raw_items, capped_entries, bind. rewrite try_eq.
  destruct (ET_fromstring env xml_text) as [root|]; simpl.
  - destruct (find root (lit "channel")) as [channel|].
    + by rewrite parse_items_eq.
    + rewrite slice_to_nil. simpl. unfold ret. by rewrite advance_clock_0.
  - rewrite slice_to_nil. simpl. unfold ret. by rewrite advance_clock_0.
Qed.

(** ** Loading the index of a day *)

Lemma foldl_insert_all_None (l : list (str * option str)) (d : gmap str (option str)) k :
  Forall (λ kv, kv.2 = None) l → mjoin (d !! k) = None →
  mjoin (foldl (λ d kv, <[kv.1 := kv.2]> d) d l !! k) = None.
Proof.
  revert d. induction l as [|[k' v] l IH]; intros d Hl Hd; simpl; [done|].
  inversion Hl as [|?? Hv Hl']; subst. simpl in Hv. subst v.
  apply IH; [done|]. rewrite lookup_insert. by case_decide.
Qed.

(** A blank record, which [DictReader] skips, would give no key anyway. *)
Lemma seed_key_blank fieldnames : seed_key fieldnames [] = None.
Proof.
  unfold seed_key, get_or_empty, DictReader_row.
  rewrite !foldl_insert_all_None; [done|..]; try done.
  all: simpl; rewrite Nat.sub_0_r; generalize (length fieldnames) as n;
    induction fieldnames as [|f fs IH]; intros [|n]; simpl; constructor; auto.
Qed.

Lemma read_rows_cons (fieldnames : list str) (record : csv_record)
    (records : list csv_record) (seen : gset (str * str)) :
  read_rows fieldnames (record :: records) seen =
    match reader_next record with
    | Raise e => (Raise e, seen)
    | Ok row =>
        read_rows fieldnames records
          (match seed_key fieldnames row with
           | Some k => {[ k ]} ∪ seen
           | None => seen
           end)
    end.
Proof.
  cbn [read_rows]. destruct (reader_next record) as [row|e]; [|done].
  destruct row as [|c row]; [by rewrite seed_key_blank|].
  unfold seed_key.
  destruct (truthy _ && truthy _); unfold bind, modify, ret; done.
Qed.

(** The set after the loop, however the loop ends. *)
Lemma read_rows_state (fieldnames : list str) (records : list csv_record) (seen : gset (str * str)) :
  (read_rows fieldnames records seen).2 =
    list_to_set (omap (seed_key fieldnames) (delivered records)) ∪ seen.
Proof.
  revert seen. induction records as [|record records IH]; intros seen.
  - simpl. set_solver.
  - rewrite read_rows_cons. cbn [delivered].
    destruct (reader_next record) as [row|e]; [|simpl; set_solver].
    rewrite IH. cbn [omap list_omap].
    destruct (seed_key fieldnames row); cbn; set_solver.
Qed.

Lemma read_rows_outcome (fieldnames : list str) (records : list csv_record) (seen : gset (str * str)) :
  if reader_raises records
  then ∃ e, (read_rows fieldnames records seen).1 = Raise e
  else (read_rows fieldnames records seen).1 = Ok tt.
Proof.
  revert seen. induction records as [|record records IH]; intros seen.
  - done.
  - rewrite read_rows_cons. cbn [reader_raises].
    destruct (reader_next record) as [row|e]; [apply IH|by exists e].
Qed.

Lemma read_records_state records :
  (read_records records ∅).2 = list_to_set (existing_keys records).
Proof.
  unfold existing_keys. destruct records as [|record rest]; [done|].
  cbn [read_records delivered].
  destruct (reader_next record) as [fieldnames|e]; [|done].
  rewrite read_rows_state. set_solver.
Qed.

Lemma read_records_outcome records :
  if reader_raises records
  then ∃ e, (read_records records ∅).1 = Raise e
  else (read_records records ∅).1 = Ok tt.
Proof.
  destruct records as [|record rest]; [done|].
  cbn [read_records reader_raises].
  destruct (reader_next record) as [fieldnames|e]; [apply read_rows_outcome|by exists e].
Qed.

(** Loading never raises and leaves the world as it is. *)
Lemma read_existing_set_eq csv_path w :
  read_existing_set csv_path w = (Ok (existing_set (data_dir w !! csv_path)), w).
Proof.
  unfold read_existing_set, bind, gets. simpl.
  destruct (data_dir w !! csv_path) as [records|]; simpl; [|done].
  rewrite try_eq, read_records_state. done.
Qed.

Lemma seed_key_Some fieldnames row t l :
  seed_key fieldnames row = Some (t, l) ↔
    t = strip (get_or_empty (DictReader_row fieldnames row) (lit "title")) ∧
    l = strip (get_or_empty (DictReader_row fieldnames row) (lit "link")) ∧
    t ≠ [] ∧ l ≠ [].
Proof.
  unfold seed_key.
  set (t0 := strip (get_or_empty _ (lit "title"))).
  set (l0 := strip (get_or_empty _ (lit "link"))).
  destruct (truthy t0) eqn:Ht, (truthy l0) eqn:Hl; simpl;
    rewrite ?truthy_true, ?truthy_false in *; naive_solver.
Qed.

(** ** Loading the queries *)

Lemma query_lines_eq lines out :
  query_lines lines out = out ++ List.filter usable (strip <$> lines).
Proof.
  revert out. induction lines as [|l lines IH]; intros out; simpl.
  - by rewrite app_nil_r.
  - unfold usable at 1. destruct (truthy (strip l)); simpl; [|apply IH].
    destruct (startswith (strip l) (lit "#")); simpl; [apply IH|].
    rewrite IH, <- app_assoc. done.
Qed.

Lemma load_queries_from_file_ok w text :
  query_file w = Some (Ok text) →
  load_queries_from_file w = (Ok (usable_lines text), w).
Proof.
  intros H. unfold load_queries_from_file, bind, gets. rewrite H.
  unfold ret. by rewrite query_lines_eq.
Qed.

Lemma DEFAULT_QUERIES_not_nil : DEFAULT_QUERIES ≠ [].
Proof. done. Qed.

Lemma queries_of_not_nil qf : queries_of qf ≠ [].
Proof.
  destruct qf as [[text|e]|]; simpl; try apply DEFAULT_QUERIES_not_nil.
  destruct (usable_lines text); [apply DEFAULT_QUERIES_not_nil|discriminate].
Qed.

Lemma load_queries_eq w :
  load_queries w =
    match query_file w with
    | Some (Raise e) => (Raise e, w)
    | qf => (Ok (queries_of qf), w)
    end.
Proof.
  unfold load_queries, bind.
  destruct (query_file w) as [[text|e]|] eqn:E.
  - rewrite (load_queries_from_file_ok w text E). simpl.
    destruct (usable_lines text); done.
  - unfold load_queries_from_file, bind, gets. by rewrite E.
  - unfold load_queries_from_file, bind, gets. by rewrite E.
Qed.

(** ** One run *)

Lemma dedup_eq items seen new_items :
  dedup items seen new_items =
    (list_to_set (item_key <$> items) ∪ seen, new_items ++ fresh seen items).
Proof.
  revert seen new_items. induction items as [|it items IH]; intros seen new_items.
  - simpl. rewrite app_nil_r. f_equal. set_solver.
  - cbn [dedup fresh]. fold (item_key it).
    rewrite fmap_cons, list_to_set_cons.
    destruct (decide (item_key it ∈ seen)) as [Hin|Hin]; rewrite IH.
    + f_equal. set_solver.
    + rewrite <- app_assoc. f_equal. set_solver.
Qed.

Lemma quiet_refl w : quiet w w 0 0.
Proof. unfold quiet. repeat split; lia. Qed.

Lemma quiet_trans w1 w2 w3 a b c d :
  quiet w1 w2 a b → quiet w2 w3 c d → quiet w1 w3 (a + c) (b + d).
Proof.
  unfold quiet. intros (?&?&?&?&?) (?&?&?&?&?).
  repeat split; try congruence; lia.
Qed.

Lemma appends_snoc t e : is_append e = false → appends (t ++ [e]) = appends t.
Proof.
  intros H. unfold appends. rewrite List.filter_app. simpl. rewrite H.
  by rewrite app_nil_r.
Qed.

Lemma query_step_eq env n seen rows i q w :
  let items := stamp env q (clock_reads w) (response_entries env (http_requests w) q) in
  ∃ w',
    query_step env n (seen, rows) (i, q) w =
      (Ok (list_to_set (item_key <$> items) ∪ seen, rows ++ (as_row <$> fresh seen items)), w')
    ∧ quiet w w' (length (response_entries env (http_requests w) q)) 1.
Proof.
  unfold response_entries, query_step.
  unfold bind at 1. rewrite try_eq.
  unfold session_get, bind, gets, modify, print.
  destruct (upstream env (http_requests w) _) as [r|e]; simpl.
  - unfold raise_for_status.
    destruct ((400 <=? status_code r)%Z && (status_code r <? 600)%Z); simpl.
    + rewrite (left_id_L ∅ (∪)). eexists. split; [reflexivity|].
      unfold quiet; simpl. rewrite !appends_snoc by done. repeat split; lia.
    + rewrite parse_rss_eq. simpl. rewrite dedup_eq. simpl.
      eexists. split; [reflexivity|].
      unfold quiet; simpl. rewrite !appends_snoc by done. repeat split; lia.
  - rewrite (left_id_L ∅ (∪)). eexists. split; [reflexivity|].
    unfold quiet; simpl. rewrite !appends_snoc by done. repeat split; lia.
Qed.

Lemma fresh_app seen items items' :
  fresh seen (items ++ items') =
    fresh seen items ++ fresh (list_to_set (item_key <$> items) ∪ seen) items'.
Proof.
  revert seen. induction items as [|it items IH]; intros seen.
  - cbn [app fresh]. by rewrite fmap_nil, list_to_set_nil, (left_id_L ∅ (∪)).
  - cbn [app fresh]. rewrite fmap_cons, list_to_set_cons.
    destruct (decide (item_key it ∈ seen)) as [Hin|Hin]; rewrite IH.
    + by replace ({[item_key it]} ∪ list_to_set (item_key <$> items) ∪ seen)
        with (list_to_set (item_key <$> items) ∪ seen) by set_solver.
    + by replace ({[item_key it]} ∪ list_to_set (item_key <$> items) ∪ seen)
        with (list_to_set (item_key <$> items) ∪ ({[item_key it]} ∪ seen)) by set_solver.
Qed.

Lemma set_comm_assoc (A B C : gset (str * str)) : A ∪ (B ∪ C) = B ∪ A ∪ C.
Proof. set_solver. Qed.

Lemma query_loop_eq env n qs k seen rows w :
  let cands := candidates env (clock_reads w) (http_requests w) qs in
  ∃ w',
    for_acc (zip (seq k (length qs)) qs) (query_step env n) (seen, rows) w =
      (Ok (list_to_set (item_key <$> cands) ∪ seen, rows ++ (as_row <$> fresh seen cands)), w')
    ∧ quiet w w' (length cands) (length qs).
Proof.
  revert k seen rows w. induction qs as [|q qs IH]; intros k seen rows w.
  - simpl. rewrite app_nil_r, (left_id_L ∅ (∪)). eexists. split; [done|].
    apply quiet_refl.
  - cbn [length seq zip zip_with for_acc candidates].
    destruct (query_step_eq env n seen rows k q w) as (w1 & Hstep & Hq1).
    rewrite (bind_ok _ _ _ _ _ Hstep).
    destruct (IH (S k) (list_to_set (item_key <$> stamp env q (clock_reads w)
                 (response_entries env (http_requests w) q)) ∪ seen)
                (rows ++ (as_row <$> fresh seen (stamp env q (clock_reads w)
                 (response_entries env (http_requests w) q)))) w1)
      as (w2 & Hloop & Hq2).
    exists w2. rewrite Hloop.
    destruct Hq1 as (Hqf & Hdd & Hc & Hr & Htr).
    rewrite Hc, Hr, Nat.add_1_r in *. split.
    + rewrite fresh_app, !fmap_app, list_to_set_app_L, app_assoc.
      do 3 f_equal. apply set_comm_assoc.
    + pose proof (quiet_trans w w1 w2 _ _ _ _
        (conj Hqf (conj Hdd (conj Hc (conj (eq_trans Hr (eq_sym (Nat.add_1_r _))) Htr)))) Hq2) as Hq.
      rewrite length_app, length_stamp. exact Hq.
Qed.

Lemma quiet_calm w w' a b : quiet w w' a b → calm w w'.
Proof. unfold quiet, calm. naive_solver. Qed.

Lemma calm_refl w : calm w w.
Proof. by unfold calm. Qed.

Lemma calm_trans w1 w2 w3 : calm w1 w2 → calm w2 w3 → calm w1 w3.
Proof. unfold calm. intros (?&?&?) (?&?&?). repeat split; congruence. Qed.

Lemma calm_emit e w : is_append e = false → calm w (emit e w).
Proof. intros H. unfold calm. simpl. by rewrite appends_snoc. Qed.

(** [collect_daily] from the load of the index to the end of the loop. *)
Lemma gather_loop_eq env d qs w :
  ∃ w', calm w w' ∧
    (seen <- read_existing_set d ;;
     print (MsgDaily d (length qs)) ;;;
     from_file <- gets (λ w, bool_decide (is_Some (query_file w))) ;;
     print (MsgQuerySource from_file) ;;;
     acc <- for_acc (zip (seq 1 (length qs)) qs) (query_step env (length qs)) (seen, []) ;;
     ret (d, acc.2)) w =
    (Ok (d, as_row <$> fresh (existing_set (data_dir w !! d))
                         (candidates env (clock_reads w) (http_requests w) qs)), w').
Proof.
  rewrite (bind_ok _ _ _ _ _ (read_existing_set_eq d w)).
  rewrite bind_print, bind_gets, bind_print.
  set (w1 := emit (EvPrint (MsgQuerySource _)) (emit (EvPrint (MsgDaily d (length qs))) w)).
  assert (calm w w1) as Hc1.
  { eapply calm_trans; by apply calm_emit. }
  destruct (query_loop_eq env (length qs) qs 1 (existing_set (data_dir w !! d)) [] w1)
    as (w2 & Hloop & Hq2).
  cbn [clock_reads http_requests emit] in Hloop.
  rewrite (bind_ok _ _ _ _ _ Hloop).
  exists w2. split; [|done].
  eapply calm_trans; [exact Hc1|]. by eapply quiet_calm.
Qed.

(** [collect_daily] up to the write: the rows it has gathered are those of
    [batch_of], and no file has changed. *)
Lemma gather_eq env day w :
  ∃ w', calm w w' ∧
    gather env day w =
      match query_file w with
      | Some (Raise e) => (Raise e, w')
      | _ => (Ok (target_day env day w, batch_of env day w), w')
      end.
Proof.
  unfold gather.
  set (w0 := match day with Some _ => w | None => tick_clock w end).
  assert (match day with Some d => ret d | None => jst_today env end w =
          (Ok (target_day env day w), w0)) as Hday by (by destruct day).
  assert (calm w w0 ∧ clock_reads w0 = clock_after_day day w
          ∧ http_requests w0 = http_requests w) as (Hcalm0 & Hc & Hr).
  { subst w0. by destruct day. }
  rewrite (bind_ok _ _ _ _ _ Hday).
  unfold bind at 1. rewrite load_queries_eq.
  pose proof Hcalm0 as (Hqf & Hdd & _). rewrite Hqf.
  destruct (gather_loop_eq env (target_day env day w) (queries_of (query_file w)) w0)
    as (w1 & Hcalm1 & Hrest).
  rewrite Hdd, Hc, Hr in Hrest. unfold batch_of, kept_of, run_candidates.
  destruct (query_file w) as [[text|e]|] eqn:E.
  - exists w1. split; [by eapply calm_trans|]. exact Hrest.
  - by exists w0.
  - exists w1. split; [by eapply calm_trans|]. exact Hrest.
Qed.

(** ** The write *)

Lemma set_data_dir_id w : set_data_dir (λ d, d) w = w.
Proof. by destruct w. Qed.

Lemma for_each_writerow (d : date) (rows : list (gmap str str)) w records :
  data_dir w !! d = Some records →
  for_each rows (λ r, writerow d ((λ k, default [] (r !! k)) <$> header)) w =
    (Ok tt,
     set_data_dir (λ dd, <[d := records ++ ((λ r, Fields (row_cells r)) <$> rows)]> dd) w).
Proof.
  revert w records. induction rows as [|r rows IH]; intros w records Hd.
  - simpl. unfold ret. rewrite app_nil_r. f_equal.
    destruct w as [qf dd c n t]. unfold set_data_dir. simpl in *.
    by rewrite insert_id.
  - cbn [for_each]. unfold writerow at 1. rewrite bind_modify.
    erewrite IH.
    2:{ simpl. rewrite lookup_insert_eq, Hd. done. }
    f_equal. unfold set_data_dir. simpl.
    by rewrite insert_insert_eq, <- app_assoc.
Qed.

Lemma append_rows_eq d rows w :
  append_rows d rows w =
    (Ok tt,
     set_data_dir (λ dd, <[d := store_rows (dd !! d) rows]> dd) (emit (EvAppend d rows) w)).
Proof.
  unfold append_rows. rewrite bind_modify, bind_gets.
  unfold open_append at 1. rewrite bind_modify.
  cbn [data_dir emit].
  destruct (data_dir w !! d) as [records|] eqn:Hd.
  - rewrite bool_decide_eq_true_2 by done. cbn [negb].
    unfold bind at 1. unfold ret at 1.
    erewrite for_each_writerow.
    2:{ simpl. rewrite lookup_insert_eq, Hd. done. }
    f_equal. unfold set_data_dir, store_rows. simpl. rewrite Hd.
    by rewrite insert_insert_eq.
  - rewrite bool_decide_eq_false_2 by (by intros [??]). cbn [negb].
    unfold writerow at 1. rewrite bind_modify.
    erewrite for_each_writerow.
    2:{ simpl. rewrite lookup_insert_eq, lookup_insert_eq. done. }
    f_equal. unfold set_data_dir, store_rows. simpl. rewrite Hd.
    by rewrite !insert_insert_eq.
Qed.

Lemma finish_eq d rows w :
  finish d rows w =
    (Ok d,
     emit (EvPrint (MsgDone (length rows)))
       match rows with
       | [] => w
       | _ :: _ =>
           set_data_dir (λ dd, <[d := store_rows (dd !! d) rows]> dd)
             (emit (EvAppend d rows) w)
       end).
Proof.
  unfold finish. destruct rows as [|r rows]; [done|].
  unfold bind at 1. by rewrite append_rows_eq.
Qed.

(** A run is [gather], which changes no file, and then [finish]. *)
Lemma collect_daily_eq env day w :
  ∃ w1, calm w w1 ∧
    collect_daily env day w =
      match query_file w with
      | Some (Raise e) => (Raise e, w1)
      | _ => finish (target_day env day w) (batch_of env day w) w1
      end.
Proof.
  destruct (gather_eq env day w) as (w1 & Hcalm & Hg).
  exists w1. split; [done|]. unfold collect_daily, bind. rewrite Hg.
  by destruct (query_file w) as [[text|e]|].
Qed.

(** The files after a run. *)
Lemma collect_daily_data_dir env day w :
  data_dir (collect_daily env day w).2 = next_data_dir env day w.
Proof.
  destruct (collect_daily_eq env day w) as (w1 & (Hqf & Hdd & Htr) & ->).
  unfold next_data_dir.
  destruct (query_file w) as [[text|e]|]; try done.
  all: rewrite finish_eq; destruct (batch_of env day w); simpl; by rewrite Hdd.
Qed.

Lemma collect_daily_query_file env day w :
  query_file (collect_daily env day w).2 = query_file w.
Proof.
  destruct (collect_daily_eq env day w) as (w1 & (Hqf & Hdd & Htr) & ->).
  destruct (query_file w) as [[text|e]|]; try done.
  all: rewrite finish_eq; by destruct (batch_of env day w).
Qed.

(** ** The duplicate filter *)

Lemma set_absorb (k : str * str) (B C : gset (str * str)) :
  k ∈ C → {[ k ]} ∪ B ∪ C = B ∪ C.
Proof. set_solver. Qed.

Lemma set_rotate (A B C : gset (str * str)) : A ∪ B ∪ C = B ∪ (A ∪ C).
Proof. set_solver. Qed.

Lemma fresh_not_seen seen items it :
  it ∈ fresh seen items → item_key it ∉ seen.
Proof.
  revert seen. induction items as [|a items IH]; intros seen; cbn [fresh].
  - by intros ?%elem_of_nil.
  - destruct (decide (item_key a ∈ seen)) as [Ha|Ha]; [by apply IH|].
    intros [->|Hin]%elem_of_cons; [done|].
    apply IH in Hin. set_solver.
Qed.

Lemma fresh_sublist seen items : fresh seen items `sublist_of` items.
Proof.
  revert seen. induction items as [|a items IH]; intros seen; cbn [fresh].
  - constructor.
  - destruct (decide (item_key a ∈ seen)); [apply sublist_cons|apply sublist_skip]; apply IH.
Qed.

Lemma fresh_NoDup seen items : NoDup (item_key <$> fresh seen items).
Proof.
  revert seen. induction items as [|a items IH]; intros seen; cbn [fresh].
  - constructor.
  - destruct (decide (item_key a ∈ seen)) as [Ha|Ha]; [apply IH|].
    rewrite fmap_cons. constructor; [|apply IH].
    intros (it & Hk & Hin)%list_elem_of_fmap.
    apply fresh_not_seen in Hin. apply Hin. rewrite <- Hk.
    by apply elem_of_union_l, elem_of_singleton.
Qed.

Lemma fresh_covers seen items :
  list_to_set (item_key <$> fresh seen items) ∪ seen =
    list_to_set (item_key <$> items) ∪ seen.
Proof.
  revert seen. induction items as [|a items IH]; intros seen; cbn [fresh].
  - done.
  - rewrite fmap_cons, list_to_set_cons.
    destruct (decide (item_key a ∈ seen)) as [Ha|Ha].
    + rewrite IH. by rewrite set_absorb.
    + rewrite fmap_cons, list_to_set_cons, !set_rotate. apply IH.
Qed.

Lemma fresh_all_seen seen items :
  (∀ it, it ∈ items → item_key it ∈ seen) → fresh seen items = [].
Proof.
  revert seen. induction items as [|a items IH]; intros seen H; cbn [fresh]; [done|].
  rewrite decide_True by (apply H; left). apply IH. intros it Hit. apply H. by right.
Qed.

(** A candidate with a key not yet seen leaves exactly one kept record with
    that key. *)
Lemma fresh_once seen items k :
  k ∈ item_key <$> items → k ∉ seen →
  length (filter (λ it, item_key it = k) (fresh seen items)) = 1.
Proof.
  intros Hin Hk.
  assert (k ∈ item_key <$> fresh seen items) as Hkept.
  { pose proof (fresh_covers seen items) as H.
    assert (k ∈ list_to_set (item_key <$> fresh seen items) ∪ seen) as Hu
      by (rewrite H; set_solver).
    set_solver. }
  pose proof (fresh_NoDup seen items) as Hnd.
  revert Hkept Hnd. generalize (fresh seen items) as l. clear.
  induction l as [|a l IH]; [by intros ?%elem_of_nil|].
  rewrite fmap_cons. intros Hin Hnd. apply NoDup_cons in Hnd as [Ha Hnd].
  rewrite filter_cons. destruct (decide (item_key a = k)) as [<-|Hne].
  - simpl. f_equal.
    destruct (filter (λ it, item_key it = item_key a) l) as [|x xs] eqn:E; [done|].
    exfalso. assert (x ∈ filter (λ it, item_key it = item_key a) l) as Hx
      by (rewrite E; left).
    apply list_elem_of_filter in Hx as [Hxa Hx]. apply Ha.
    apply list_elem_of_fmap. by exists x.
  - apply IH; [|done]. apply elem_of_cons in Hin as [?|?]; [congruence|done].
Qed.

(** ** What every record of a run satisfies *)

Lemma capped_entries_ok items max_items e :
  e ∈ capped_entries items max_items →
  e.1.1 ≠ [] ∧ strip e.1.1 = e.1.1 ∧ strip e.1.2 = e.1.2 ∧
  ∃ it, it ∈ items ∧ e = entry_of it.
Proof.
  unfold capped_entries. rewrite list_elem_of_In, List.filter_In, <- list_elem_of_In.
  intros [(it & -> & Hit)%list_elem_of_fmap Ht].
  unfold has_title in Ht. apply truthy_true in Ht.
  repeat split; [done|apply strip_idem|apply strip_idem|].
  exists it. split; [|done].
  unfold slice_to in Hit. destruct (_ <? _)%Z;
    eapply (subseteq_take _ _), Hit.
Qed.

Lemma response_entries_ok env n q e :
  e ∈ response_entries env n q →
  e.1.1 ≠ [] ∧ strip e.1.1 = e.1.1 ∧ strip e.1.2 = e.1.2.
Proof.
  unfold response_entries. destruct (upstream env n _) as [r|]; [|by intros ?%elem_of_nil].
  destruct (_ && _); [by intros ?%elem_of_nil|].
  intros H%capped_entries_ok. naive_solver.
Qed.

Lemma stamp_elem env q c es it :
  it ∈ stamp env q c es →
  query it = q ∧ ∃ e, e ∈ es ∧ title it = e.1.1 ∧ link it = e.1.2 ∧ published it = e.2.
Proof.
  revert c. induction es as [|e es IH]; intros c; simpl.
  - by intros ?%elem_of_nil.
  - intros [->|Hin]%elem_of_cons.
    + split; [done|]. exists e. split; [left|done].
    + destruct (IH _ Hin) as (Hq & e' & He' & H). split; [done|].
      exists e'. split; [by right|done].
Qed.

Lemma candidates_ok env c n qs : Forall item_ok (candidates env c n qs).
Proof.
  revert c n. induction qs as [|q qs IH]; intros c n; simpl; [constructor|].
  apply Forall_app. split; [|apply IH].
  apply Forall_forall. intros it (_ & e & He & Ht & Hl & _)%stamp_elem.
  apply response_entries_ok in He. unfold item_ok. rewrite Ht, Hl. naive_solver.
Qed.

Lemma kept_of_ok env day w : Forall item_ok (kept_of env day w).
Proof.
  unfold kept_of. apply Forall_forall. intros it Hit.
  pose proof (candidates_ok env (clock_after_day day w) (http_requests w)
                (queries_of (query_file w))) as H.
  rewrite Forall_forall in H. apply H.
  eapply sublist_subseteq; [apply fresh_sublist|exact Hit].
Qed.

(** ** Rows written and rows read back *)

Lemma row_cells_as_row it :
  row_cells (as_row it) =
    [lit "GoogleNews:" ++ query it; query it; title it; link it; published it;
     collected_jst it].
Proof. destruct it. vm_compute. reflexivity. Qed.

Lemma row_key_as_row it : row_key (row_cells (as_row it)) = item_key it.
Proof. by rewrite row_cells_as_row. Qed.

Lemma row_ok_as_row it : item_ok it → row_ok (row_cells (as_row it)).
Proof.
  intros (Ht & Hst & Hsl). unfold row_ok. rewrite row_key_as_row, row_cells_as_row.
  done.
Qed.

Lemma seed_key_header a b c d e f :
  seed_key header [a; b; c; d; e; f] =
    if truthy (strip c) && truthy (strip d) then Some (strip c, strip d) else None.
Proof.
  unfold seed_key.
  assert (get_or_empty (DictReader_row header [a; b; c; d; e; f]) (lit "title") = c)
    as -> by (vm_compute; reflexivity).
  assert (get_or_empty (DictReader_row header [a; b; c; d; e; f]) (lit "link") = d)
    as -> by (vm_compute; reflexivity).
  done.
Qed.

(** Under the header, a row as runs write them seeds the index with its key
    exactly when it has a link. *)
Lemma seed_key_row_ok row :
  row_ok row →
  seed_key header row = if decide (linked (row_key row)) then Some (row_key row) else None.
Proof.
  intros (Hlen & Ht & Hst & Hsl).
  destruct row as [|a [|b [|c [|d [|e [|f [|g row]]]]]]]; try done.
  rewrite seed_key_header.
  change (row_key [a; b; c; d; e; f]) with (c, d) in *. cbn [fst snd] in *.
  rewrite Hst, Hsl. apply truthy_true in Ht. rewrite Ht. cbn [andb].
  destruct (decide (linked (c, d))) as [Hl|Hl]; unfold linked in Hl; cbn [snd] in Hl.
  - apply truthy_true in Hl. by rewrite Hl.
  - destruct d; [done|]. by exfalso; apply Hl.
Qed.

Lemma reader_next_header : reader_next (Fields header) = Ok header.
Proof. reflexivity. Qed.

Lemma reader_next_short row : row_short row → reader_next (Fields row) = Ok row.
Proof. unfold row_short, reader_next. by intros ->. Qed.

Lemma reader_next_long row : ¬ row_short row → reader_next (Fields row) = Raise CsvError.
Proof. unfold row_short, reader_next. by destruct (forallb field_ok row). Qed.

(** The reader takes the rows up to the first one with a field over the
    limit. *)
Lemma delivered_fields_prefix rows : delivered (Fields <$> rows) `prefix_of` rows.
Proof.
  induction rows as [|row rows IH]; [done|]. rewrite fmap_cons. cbn [delivered].
  destruct (reader_next (Fields row)) as [row'|e] eqn:E; [|apply prefix_nil].
  unfold reader_next in E. destruct (forallb field_ok row); [|done].
  injection E as <-. by apply prefix_cons.
Qed.

Lemma delivered_fields rows :
  Forall row_short rows → delivered (Fields <$> rows) = rows.
Proof.
  induction 1 as [|row rows Hrow _ IH]; [done|]. rewrite fmap_cons. cbn [delivered].
  by rewrite (reader_next_short _ Hrow), IH.
Qed.

Lemma delivered_fields_app rows rows' :
  Forall row_short rows →
  delivered (Fields <$> (rows ++ rows')) = rows ++ delivered (Fields <$> rows').
Proof.
  induction 1 as [|row rows Hrow _ IH]; [done|].
  rewrite <- app_comm_cons, fmap_cons. cbn [delivered].
  by rewrite (reader_next_short _ Hrow), IH.
Qed.

Lemma delivered_fields_long rows row rows' :
  Forall row_short rows → ¬ row_short row →
  delivered (Fields <$> (rows ++ row :: rows')) = rows.
Proof.
  intros Hrows Hrow. rewrite (delivered_fields_app _ _ Hrows), fmap_cons.
  cbn [delivered]. by rewrite (reader_next_long _ Hrow), app_nil_r.
Qed.

Lemma omap_seed_key_ok rows :
  Forall row_ok rows →
  omap (seed_key header) rows = filter linked (row_key <$> rows).
Proof.
  induction 1 as [|row rows Hrow _ IH]; [done|].
  cbn [omap list_omap]. rewrite fmap_cons, filter_cons, seed_key_row_ok by done.
  destruct (decide (linked (row_key row))); by rewrite <- IH.
Qed.

(** The index of a file that runs have written: the keys, with a link, of
    the rows the reader takes. *)
Lemma existing_set_written rows :
  Forall row_ok rows →
  existing_set (Some (Fields header :: (Fields <$> rows))) =
    list_to_set (filter linked (row_key <$> delivered (Fields <$> rows))).
Proof.
  intros H. unfold existing_set, existing_keys. cbn [delivered].
  rewrite reader_next_header, omap_seed_key_ok; [done|].
  destruct (delivered_fields_prefix rows) as [rest Hrest].
  rewrite Hrest in H. by apply Forall_app in H as [? _].
Qed.

Lemma existing_set_day_ok rows :
  Forall row_ok rows → Forall row_short rows →
  existing_set (Some (Fields header :: (Fields <$> rows))) =
    list_to_set (filter linked (row_key <$> rows)).
Proof. intros H Hs. by rewrite existing_set_written, delivered_fields. Qed.

(** ** The invariant of the dataset *)

Lemma store_rows_fields file (items : list NewsItem) rows :
  match file with
  | None => rows = []
  | Some records => records = Fields header :: (Fields <$> rows)
  end →
  store_rows file (as_row <$> items) =
    Fields header :: (Fields <$> (rows ++ ((λ it, row_cells (as_row it)) <$> items))).
Proof.
  unfold store_rows. rewrite <- list_fmap_compose.
  destruct file as [records|]; intros ->; simpl; by rewrite ?fmap_app, <- ?list_fmap_compose.
Qed.

Lemma day_ok_store file items :
  match file with None => True | Some records => day_ok records end →
  Forall item_ok items →
  NoDup (item_key <$> items) →
  (∀ it, it ∈ items → item_key it ∉ existing_set file) →
  day_ok (store_rows file (as_row <$> items)).
Proof.
  intros Hfile Hok Hnd Hnew.
  assert (∃ rows, match file with
                  | None => rows = []
                  | Some records => records = Fields header :: (Fields <$> rows)
                  end ∧ Forall row_ok rows
                  ∧ (Forall row_short rows →
                     NoDup (filter linked (row_key <$> rows)) ∧
                     existing_set file = list_to_set (filter linked (row_key <$> rows))))
    as (rows & Hrows & Hrok & Hshort).
  { destruct file as [records|].
    - destruct Hfile as (rows & -> & ? & ?). exists rows.
      repeat split; try done; [auto|]. by apply existing_set_day_ok.
    - exists []. repeat split; try done; constructor. }
  exists (rows ++ ((λ it, row_cells (as_row it)) <$> items)).
  split; [by apply store_rows_fields|]. split.
  - apply Forall_app. split; [done|]. apply Forall_fmap.
    eapply Forall_impl; [exact Hok|]. intros it. apply row_ok_as_row.
  - intros [Hs _]%Forall_app. destruct (Hshort Hs) as [Hrnd Hseen].
    rewrite fmap_app, filter_app, <- list_fmap_compose.
    rewrite (list_fmap_ext _ item_key items) by (intros; apply row_key_as_row).
    apply NoDup_app. split; [done|]. split.
    + intros k Hk (_ & Hk')%list_elem_of_filter.
      apply list_elem_of_fmap in Hk' as (it & -> & Hit).
      apply (Hnew it Hit). rewrite Hseen. by apply elem_of_list_to_set.
    + by apply NoDup_filter.
Qed.

Lemma dir_ok_next env day w : dir_ok (data_dir w) → dir_ok (next_data_dir env day w).
Proof.
  intros Hok. unfold next_data_dir.
  assert (dir_ok match batch_of env day w with
                 | [] => data_dir w
                 | _ :: _ =>
                     <[target_day env day w :=
                         store_rows (data_dir w !! target_day env day w) (batch_of env day w)]>
                       (data_dir w)
                 end) as H.
  { destruct (batch_of env day w) eqn:E; [done|]. rewrite <- E.
    intros d records. rewrite lookup_insert. case_decide as Hd; [|apply Hok].
    intros [= <-]. unfold batch_of. apply day_ok_store.
    - destruct (data_dir w !! _) eqn:Hf; [by eapply Hok|done].
    - apply kept_of_ok.
    - apply fresh_NoDup.
    - intros it. apply fresh_not_seen. }
  destruct (query_file w) as [[text|e]|]; try done;
    destruct (batch_of env day w); done.
Qed.

Lemma step_dir_ok w w' : step w w' → dir_ok (data_dir w) → dir_ok (data_dir w').
Proof.
  intros [env day w1|qf w1] Hok.
  - rewrite collect_daily_data_dir. by apply dir_ok_next.
  - done.
Qed.

Lemma reachable_dir_ok w : reachable w → dir_ok (data_dir w).
Proof.
  intros (w0 & Hw0 & Hsteps).
  assert (dir_ok (data_dir w0)) as H0.
  { rewrite Hw0. intros d records. by rewrite lookup_empty. }
  clear Hw0. induction Hsteps as [|w1 w2 w3 Hstep _ IH]; [done|].
  apply IH. by eapply step_dir_ok.
Qed.

(** From the keys to the rows: among rows with distinct linked keys, two
    rows with the same key and a link are the same row. *)
Lemma NoDup_linked_rows rows i j r1 r2 :
  NoDup (filter linked (row_key <$> rows)) →
  rows !! i = Some r1 → rows !! j = Some r2 →
  linked (row_key r1) → row_key r1 = row_key r2 → i = j.
Proof.
  revert i j. induction rows as [|r rows IH]; intros i j Hnd Hi Hj Hl Hk; [done|].
  rewrite fmap_cons, filter_cons in Hnd.
  destruct i as [|i], j as [|j]; simpl in *.
  - done.
  - injection Hi as ->. rewrite decide_True in Hnd by done.
    apply NoDup_cons in Hnd as [Hnot _]. exfalso. apply Hnot.
    apply list_elem_of_filter. split; [done|].
    rewrite Hk. apply list_elem_of_fmap. exists r2. split; [done|].
    by eapply list_elem_of_lookup_2.
  - injection Hj as ->. rewrite decide_True in Hnd by (by rewrite <- Hk).
    apply NoDup_cons in Hnd as [Hnot _]. exfalso. apply Hnot.
    apply list_elem_of_filter. split; [by rewrite <- Hk|].
    rewrite <- Hk. apply list_elem_of_fmap. exists r1. split; [done|].
    by eapply list_elem_of_lookup_2.
  - f_equal. eapply IH; try done.
    destruct (decide (linked (row_key r))); [by apply NoDup_cons in Hnd as [_ ?]|done].
Qed.

Lemma data_rows_fields h rows : data_rows (h :: (Fields <$> rows)) = rows.
Proof.
  unfold data_rows. cbn [tail].
  induction rows as [|r rows IH]; [done|].
  rewrite fmap_cons. cbn [omap list_omap]. by rewrite IH.
Qed.

(** ** Runs that change nothing *)

Lemma next_data_dir_nil env day w :
  batch_of env day w = [] → next_data_dir env day w = data_dir w.
Proof. unfold next_data_dir. intros ->. by destruct (query_file w) as [[?|?]|]. Qed.

(** The calls of [append_rows] in a run: one when it has gathered rows,
    none otherwise. *)
Lemma collect_daily_appends env day w :
  appends (trace (collect_daily env day w).2) =
    appends (trace w) ++
      match query_file w, batch_of env day w with
      | Some (Raise _), _ | _, [] => []
      | _, (_ :: _) as rows => [EvAppend (target_day env day w) rows]
      end.
Proof.
  destruct (collect_daily_eq env day w) as (w1 & (Hqf & Hdd & Htr) & ->).
  assert (appends (trace (finish (target_day env day w) (batch_of env day w) w1).2) =
          appends (trace w) ++
            match batch_of env day w with
            | [] => []
            | (_ :: _) as rows => [EvAppend (target_day env day w) rows]
            end) as H.
  { rewrite finish_eq. cbn [snd]. destruct (batch_of env day w) as [|r rows].
    - cbn [emit trace]. by rewrite appends_snoc, app_nil_r.
    - cbn [emit trace set_data_dir]. rewrite appends_snoc by done.
      unfold appends. rewrite List.filter_app. fold (appends (trace w1)).
      by rewrite Htr. }
  destruct (query_file w) as [[text|e]|]; try done.
  cbn [snd]. by rewrite app_nil_r.
Qed.

Lemma item_key_stamp env q c es :
  item_key <$> stamp env q c es = (λ e : entry, (e.1.1, e.1.2)) <$> es.
Proof. revert c. induction es as [|e es IH]; intros c; simpl; [done|]. by rewrite IH. Qed.

(** With a fixed upstream the candidates of two runs have the same keys. *)
Lemma candidates_keys_fixed env c n c' n' qs :
  fixed_upstream env →
  item_key <$> candidates env c n qs = item_key <$> candidates env c' n' qs.
Proof.
  intros Hfix. revert c n c' n'. induction qs as [|q qs IH]; intros c n c' n'; [done|].
  cbn [candidates].
  assert (response_entries env n q = response_entries env n' q) as ->.
  { unfold response_entries. by rewrite (Hfix n n'). }
  rewrite !fmap_app, !item_key_stamp. f_equal. apply IH.
Qed.

Lemma next_data_dir_lookup env day w :
  readable w → batch_of env day w ≠ [] →
  next_data_dir env day w !! target_day env day w =
    Some (store_rows (data_dir w !! target_day env day w) (batch_of env day w)).
Proof.
  intros Hr Hne. unfold next_data_dir.
  destruct (batch_of env day w) as [|r rows]; [done|].
  destruct (query_file w) as [[text|e]|] eqn:E.
  - by rewrite lookup_insert_eq.
  - by destruct (Hr e).
  - by rewrite lookup_insert_eq.
Qed.

Lemma subset_of_cover (C S : gset (str * str)) : ∅ ∪ S = C ∪ S → C ⊆ S.
Proof. set_solver. Qed.

Lemma filter_linked_all (items : list NewsItem) :
  Forall (λ it, link it ≠ []) items →
  filter linked (item_key <$> items) = item_key <$> items.
Proof.
  induction 1 as [|it l Hit _ IH]; [done|].
  rewrite fmap_cons, filter_cons, decide_True by done. by rewrite IH.
Qed.

(** The index a run would load from the file it has just written: the keys
    of all its candidates, and those that were there before, when every
    record it kept has a link. *)
Lemma existing_set_after_store env day w :
  dir_ok (data_dir w) →
  Forall (λ it, link it ≠ []) (kept_of env day w) →
  Forall row_short
    (data_rows (store_rows (data_dir w !! target_day env day w) (batch_of env day w))) →
  existing_set (Some (store_rows (data_dir w !! target_day env day w) (batch_of env day w))) =
    list_to_set (item_key <$> run_candidates env day w)
      ∪ existing_set (data_dir w !! target_day env day w).
Proof.
  intros Hok Hlinks. set (d := target_day env day w).
  assert (∃ rows, match data_dir w !! d with
                  | None => rows = []
                  | Some records => records = Fields header :: (Fields <$> rows)
                  end ∧ Forall row_ok rows
                  ∧ (Forall row_short rows →
                     existing_set (data_dir w !! d) =
                       list_to_set (filter linked (row_key <$> rows))))
    as (rows & Hrows & Hrok & Hseen).
  { destruct (data_dir w !! d) as [records|] eqn:Hf.
    - destruct (Hok d records Hf) as (rows & -> & ? & ?). exists rows.
      repeat split; try done. by apply existing_set_day_ok.
    - exists []. repeat split; try done. }
  unfold batch_of. rewrite (store_rows_fields _ _ rows Hrows), data_rows_fields.
  intros Hshort. pose proof Hshort as [Hs _]%Forall_app. specialize (Hseen Hs).
  rewrite existing_set_day_ok; [|
    apply Forall_app; split; [done|]; apply Forall_fmap;
    eapply Forall_impl; [apply kept_of_ok|]; intros ?; apply row_ok_as_row | done].
  rewrite fmap_app, filter_app, <- list_fmap_compose.
  rewrite (list_fmap_ext _ item_key (kept_of env day w))
    by (intros; apply row_key_as_row).
  rewrite list_to_set_app_L, <- Hseen, (filter_linked_all _ Hlinks).
  rewrite (comm_L (∪)). apply fresh_covers.
Qed.

(** A second run on the same day, with the same answers from upstream, keeps
    nothing when all that the first run kept has a link. *)
Lemma second_batch_nil env d w :
  fixed_upstream env → dir_ok (data_dir w) → readable w →
  Forall (λ it, link it ≠ []) (kept_of env (Some d) w) →
  Forall row_short (day_rows (collect_daily env (Some d) w).2 d) →
  batch_of env (Some d) (collect_daily env (Some d) w).2 = [].
Proof.
  intros Hfix Hok Hread Hlinks Hshort.
  set (w1 := (collect_daily env (Some d) w).2).
  assert (query_file w1 = query_file w) as Hqf by apply collect_daily_query_file.
  assert (data_dir w1 = next_data_dir env (Some d) w) as Hdd by apply collect_daily_data_dir.
  assert (list_to_set (item_key <$> run_candidates env (Some d) w)
            ⊆ existing_set (data_dir w1 !! d)) as Hsub.
  { rewrite Hdd.
    assert (batch_of env (Some d) w = [] ∨ batch_of env (Some d) w ≠ []) as [Hnil|Hne]
      by (destruct (batch_of env (Some d) w); [by left|by right]).
    - rewrite (next_data_dir_nil _ _ _ Hnil).
      pose proof (fresh_covers (existing_set (data_dir w !! d))
                    (run_candidates env (Some d) w)) as Hc.
      change (fresh _ _) with (kept_of env (Some d) w) in Hc.
      unfold batch_of in Hnil. apply fmap_nil_inv in Hnil. rewrite Hnil in Hc.
      rewrite fmap_nil, list_to_set_nil in Hc. by apply subset_of_cover.
    - unfold day_rows in Hshort. fold w1 in Hshort. rewrite Hdd in Hshort.
      rewrite (next_data_dir_lookup env (Some d) w Hread Hne : _ !! d = _) in Hshort |- *.
      rewrite (existing_set_after_store env (Some d) w Hok Hlinks Hshort).
      apply union_subseteq_l. }
  unfold batch_of, kept_of.
  rewrite fresh_all_seen; [done|].
  intros it Hit. apply Hsub. apply elem_of_list_to_set.
  unfold run_candidates in Hit |- *. rewrite Hqf in Hit.
  rewrite (candidates_keys_fixed env _ _ (clock_after_day (Some d) w1) (http_requests w1) _ Hfix).
  apply list_elem_of_fmap. by exists it.
Qed.

(** ** Worlds that runs lead to *)

Lemma reachable_run env day w : reachable w → reachable (collect_daily env day w).2.
Proof.
  intros (w0 & H0 & Hsteps). exists w0. split; [done|].
  eapply rtc_r; [exact Hsteps|]. apply step_run.
Qed.

Lemma reachable_start w : data_dir w = ∅ → reachable w.
Proof. intros H. exists w. split; [done|]. apply rtc_refl. Qed.

(** The index never holds a key without a link. *)
Lemma existing_set_linked file t l : (t, l) ∈ existing_set file → t ≠ [] ∧ l ≠ [].
Proof.
  unfold existing_set, existing_keys. destruct file as [records|]; [|set_solver].
  destruct (delivered records) as [|fieldnames rows]; [set_solver|].
  rewrite elem_of_list_to_set, list_elem_of_omap.
  intros (row & _ & H%seed_key_Some). naive_solver.
Qed.

(** ** The feeds of the examples *)

Lemma entry_of_rss_item t l p : entry_of (rss_item t l p) = (strip t, strip l, strip p).
Proof. reflexivity. Qed.

Lemma raw_items_rss_feed2 env xml_text a b :
  ET_fromstring env xml_text = Some (rss_feed [a; b]) →
  el_tag a = lit "item" → el_tag b = lit "item" →
  raw_items env xml_text = [a; b].
Proof.
  intros H Ha Hb. unfold raw_items. rewrite H.
  change (find (rss_feed [a; b]) (lit "channel"))
    with (Some (mkElement (lit "channel") None [a; b])).
  unfold findall. cbn [el_children].
  rewrite filter_cons, decide_True by done.
  rewrite filter_cons, decide_True by done. done.
Qed.

Lemma slice_to_all {A} (l : list A) (n : Z) :
  (Z.of_nat (length l) ≤ n)%Z → slice_to l n = l.
Proof.
  intros H. unfold slice_to.
  destruct (n <? 0)%Z eqn:E; [lia|]. apply take_ge. lia.
Qed.

Lemma fresh_three (a b c : NewsItem) :
  item_key a ≠ item_key b → item_key c = item_key a →
  fresh ∅ [a; b; c] = [a; b].
Proof.
  intros Hab Hca. cbn [fresh]. rewrite Hca.
  generalize dependent (item_key a). generalize dependent (item_key b).
  intros kb ka Hab _.
  rewrite decide_False by apply not_elem_of_empty.
  rewrite decide_False.
  2:{ intros [H|H]%elem_of_union; [apply elem_of_singleton in H; congruence|].
      by apply not_elem_of_empty in H. }
  rewrite decide_True; [done|].
  apply elem_of_union_r, elem_of_union_l. by apply elem_of_singleton.
Qed.

(** ** Feeds of one entry, and the field limit *)

Lemma raw_items_rss_feed env xml_text items :
  ET_fromstring env xml_text = Some (rss_feed items) →
  Forall (λ a, el_tag a = lit "item") items →
  raw_items env xml_text = items.
Proof.
  intros H Hitems. unfold raw_items. rewrite H.
  change (find (rss_feed items) (lit "channel"))
    with (Some (mkElement (lit "channel") None items)).
  unfold findall. cbn [el_children]. clear H.
  induction Hitems as [|a items Ha _ IH]; [done|].
  by rewrite filter_cons, decide_True, IH.
Qed.

Lemma strip_replicate n c : isspace c = false → strip (replicate n c) = replicate n c.
Proof.
  intros Hc. destruct n as [|n]; [done|].
  assert (lstrip (replicate (S n) c) = replicate (S n) c) as Hl
    by (by apply (lstrip_fix _ c (replicate n c))).
  unfold strip, rstrip. by rewrite Hl, reverse_replicate, Hl, reverse_replicate.
Qed.

Lemma long_title_strip : strip long_title = long_title.
Proof. by apply strip_replicate. Qed.

Lemma long_title_over : field_ok long_title = false.
Proof. unfold field_ok, long_title. by rewrite length_replicate, N2Nat.id. Qed.

Lemma long_title_not_nil : long_title ≠ [].
Proof. intros H. pose proof long_title_over as Ho. by rewrite H in Ho. Qed.

Section OneEntry.
Variables t l : str.
Hypothesis Ht : strip t = t.
Hypothesis Hne : t ≠ [].
Hypothesis Hl : strip l = l.

Lemma one_entry_candidates w :
  query_file w = Some (Ok (lit "Q")) →
  run_candidates (env_one t l) (Some 20240501%N) w = [item_one t l].
Proof using Ht Hne Hl.
  intros Hq. unfold run_candidates. rewrite Hq.
  change (queries_of (Some (Ok (lit "Q")))) with [lit "Q"].
  cbn [candidates]. rewrite app_nil_r.
  assert (response_entries (env_one t l) (http_requests w) (lit "Q") = [(t, l, [])]) as ->.
  { unfold response_entries. cbn [upstream env_one status_code resp_text].
    change ((400 <=? 200)%Z && (200 <? 600)%Z) with false. cbv iota.
    rewrite (raw_items_rss_feed _ _ [rss_item t l []]);
      [|done|by repeat constructor].
    unfold capped_entries. rewrite slice_to_all by (simpl; lia).
    rewrite fmap_cons, entry_of_rss_item, Ht, Hl. cbn [fmap list_fmap List.filter].
    unfold has_title. cbn [fst]. apply truthy_true in Hne. by rewrite Hne. }
  reflexivity.
Qed.

Lemma row_cells_one : row_cells (as_row (item_one t l)) = row_one t l.
Proof. by rewrite row_cells_as_row. Qed.

Lemma row_one_ok : row_ok (row_one t l).
Proof using Ht Hne Hl. rewrite <- row_cells_one. by apply row_ok_as_row. Qed.

Lemma one_entry_kept w :
  query_file w = Some (Ok (lit "Q")) →
  (t, l) ∉ existing_set (data_dir w !! 20240501%N) →
  kept_of (env_one t l) (Some 20240501%N) w = [item_one t l].
Proof using Ht Hne Hl.
  intros Hq Hnew. unfold kept_of. rewrite (one_entry_candidates _ Hq).
  cbn [fresh target_day]. by rewrite decide_False.
Qed.

(** A run adds the row of the entry when its key is not in the index. *)
Lemma one_entry_run w :
  query_file w = Some (Ok (lit "Q")) →
  (t, l) ∉ existing_set (data_dir w !! 20240501%N) →
  data_dir (collect_daily (env_one t l) (Some 20240501%N) w).2 !! 20240501%N =
    Some (match data_dir w !! 20240501%N with
          | None => [Fields header]
          | Some records => records
          end ++ [Fields (row_one t l)])
  ∧ query_file (collect_daily (env_one t l) (Some 20240501%N) w).2 = Some (Ok (lit "Q")).
Proof using Ht Hne Hl.
  intros Hq Hnew. split; [|by rewrite collect_daily_query_file].
  pose proof (one_entry_kept w Hq Hnew) as Hkept.
  rewrite collect_daily_data_dir.
  rewrite (next_data_dir_lookup (env_one t l) (Some 20240501%N) w
             : _ → _ → _ !! 20240501%N = _).
  - unfold batch_of. rewrite Hkept. unfold store_rows. cbn [target_day fmap list_fmap].
    by rewrite row_cells_one.
  - intros e. by rewrite Hq.
  - unfold batch_of. by rewrite Hkept.
Qed.

(** With a field over the limit in the row, the second run does not find
    the key in the file and writes the row again. *)
Lemma over_limit_rows_twice :
  field_ok t = false →
  let w1 := (collect_daily (env_one t l) (Some 20240501%N) w_Q).2 in
  let w2 := (collect_daily (env_one t l) (Some 20240501%N) w1).2 in
  day_rows w1 20240501%N = [row_one t l] ∧
  day_rows w2 20240501%N = [row_one t l; row_one t l].
Proof using Ht Hne Hl.
  intros Hover w1 w2.
  destruct (one_entry_run w_Q eq_refl) as [Hd1 Hq1]; [apply not_elem_of_empty|].
  fold w1 in Hd1, Hq1. change (data_dir w_Q !! 20240501%N) with (@None (list csv_record)) in Hd1.
  cbn [app] in Hd1.
  assert (¬ row_short (row_one t l)) as Hlong.
  { unfold row_short, row_one. cbn [forallb]. rewrite Hover. by vm_compute. }
  assert (existing_set (data_dir w1 !! 20240501%N) = ∅) as Hseen.
  { rewrite Hd1.
    change [Fields header; Fields (row_one t l)]
      with (Fields header :: (Fields <$> [row_one t l])).
    rewrite existing_set_written by (repeat constructor; apply row_one_ok).
    pose proof (delivered_fields_long [] (row_one t l) [] (Forall_nil_2 _) Hlong) as Hdel.
    cbn [app] in Hdel. by rewrite Hdel. }
  destruct (one_entry_run w1 Hq1) as [Hd2 _]; [rewrite Hseen; apply not_elem_of_empty|].
  fold w2 in Hd2. rewrite Hd1 in Hd2. cbn [app] in Hd2.
  unfold day_rows. split.
  - exact (f_equal (λ file, data_rows (default [] file)) Hd1).
  - exact (f_equal (λ file, data_rows (default [] file)) Hd2).
Qed.

End OneEntry.

Lemma reachable_long_twice : reachable w_long_twice.
Proof. apply reachable_run, reachable_run, reachable_start. reflexivity. Qed.

Lemma long_rows_twice :
  day_rows w_long_once 20240501%N = [row_one long_title (lit "L")] ∧
  day_rows w_long_twice 20240501%N =
    [row_one long_title (lit "L"); row_one long_title (lit "L")].
Proof.
  apply (over_limit_rows_twice long_title (lit "L") long_title_strip long_title_not_nil
           eq_refl long_title_over).
Qed.

(** * The claims of the specification *)

(** ** The parser *)

(** C5: the cap [max_items] cuts the raw items in document order before
    titleless entries are dropped: for a cap that is not negative, the
    records are those of the entries with a title among the first
    [max_items] raw items, so an entry without a title uses up a slot.  And
    the parser can return fewer than [max_items] records from a feed that
    has [max_items] entries with a title: under a cap of two, the feed of a
    blank entry followed by T1 and T2 gives the record of T1 alone. *)
Theorem cap_before_title_filter :
  (∀ env xml_text q max_items w root channel,
     (0 ≤ max_items)%Z →
     ET_fromstring env xml_text = Some root →
     find root (lit "channel") = Some channel →
     (parse_rss env xml_text q max_items w).1 =
       Ok (stamp env q (clock_reads w)
             (List.filter has_title
                (entry_of <$> take (Z.to_nat max_items) (findall channel (lit "item"))))))
  ∧ raw_items env_blank_first (lit "<feed>") =
      [ rss_item (lit "  ") (lit "L0") []; rss_item (lit "T1") (lit "L1") [];
        rss_item (lit "T2") (lit "L2") [] ]
  ∧ (parse_rss env_blank_first (lit "<feed>") (lit "Q") 2 w_fresh).1 =
      Ok [mkNewsItem (lit "Q") (lit "T1") (lit "L1") [] (lit "now")]
  ∧ (parse_rss env_blank_first (lit "<feed>") (lit "Q") 3 w_fresh).1 =
      Ok [ mkNewsItem (lit "Q") (lit "T1") (lit "L1") [] (lit "now");
           mkNewsItem (lit "Q") (lit "T2") (lit "L2") [] (lit "now") ].
Proof.
  split; [|split; [|split]].
  - intros env xml_text q max_items w root channel Hmax Hroot Hchannel.
    rewrite parse_rss_eq. unfold capped_entries, raw_items, slice_to. cbn [fst].
    rewrite Hroot, Hchannel.
    by rewrite (proj2 (Z.ltb_ge max_items 0)) by lia.
  - reflexivity.
  - by vm_compute.
  - by vm_compute.
Qed.

Lemma cap_before_title_filter_witness :
  (0 ≤ 2)%Z ∧
  (parse_rss env_blank_first (lit "<feed>") (lit "Q") 2 w_fresh).1 =
    Ok (stamp env_blank_first (lit "Q") 0
          (List.filter has_title
             (entry_of <$> take 2 [ rss_item (lit "  ") (lit "L0") [];
                                    rss_item (lit "T1") (lit "L1") [];
                                    rss_item (lit "T2") (lit "L2") [] ]))).
Proof.
  split; [lia|].
  exact (proj1 cap_before_title_filter env_blank_first (lit "<feed>") (lit "Q") 2%Z w_fresh
           (rss_feed [ rss_item (lit "  ") (lit "L0") []; rss_item (lit "T1") (lit "L1") [];
                       rss_item (lit "T2") (lit "L2") [] ])
           (mkElement (lit "channel") None
              [ rss_item (lit "  ") (lit "L0") []; rss_item (lit "T1") (lit "L1") [];
                rss_item (lit "T2") (lit "L2") [] ])
           ltac:(lia) eq_refl eq_refl).
Defined.

(** C6: the parser never raises: it returns a sequence of records for every
    input, and the empty one when the text is not well-formed XML or the
    root has no [channel] child. *)
Theorem parse_rss_never_raises env xml_text q max_items w :
  ∃ items,
    (parse_rss env xml_text q max_items w).1 = Ok items ∧
    (ET_fromstring env xml_text = None → items = []) ∧
    (∀ root, ET_fromstring env xml_text = Some root →
             find root (lit "channel") = None → items = []).
Proof.
  eexists. split; [by rewrite parse_rss_eq|].
  unfold capped_entries, raw_items. split.
  - intros ->. by rewrite slice_to_nil.
  - intros root -> ->. by rewrite slice_to_nil.
Qed.

Lemma parse_rss_never_raises_witness :
  ET_fromstring env_AB (lit "not xml") = None ∧
  (parse_rss env_AB (lit "not xml") (lit "A") 60 w_fresh).1 = Ok [].
Proof.
  split; [reflexivity|].
  destruct (parse_rss_never_raises env_AB (lit "not xml") (lit "A") 60 w_fresh)
    as (items & Hparse & Hnone & _).
  rewrite Hparse. f_equal. apply Hnone. reflexivity.
Defined.

(** ** Loading the index and the queries *)

(** C7, amended: what the load gives once the existence check has
    answered.  With no file the index is empty.  With a file, the load
    returns, whatever reading the file raises, and changes nothing; the
    index holds exactly the keys (title, link), trimmed, of the rows the
    reader delivers that have both a title and a link, and the other rows
    are skipped; when reading fails on the way these are the rows read
    before the failure, so the index is empty when the failure comes before
    the first row.  (The existence check stands outside the handler: a
    check that raises is not covered.) *)
Theorem load_index_spec csv_path w :
  match data_dir w !! csv_path with
  | None => read_existing_set csv_path w = (Ok ∅, w)
  | Some records =>
      ∃ seen,
        read_existing_set csv_path w = (Ok seen, w) ∧
        (∀ t l, (t, l) ∈ seen ↔
           ∃ fieldnames rows row,
             delivered records = fieldnames :: rows ∧ row ∈ rows ∧
             t = strip (get_or_empty (DictReader_row fieldnames row) (lit "title")) ∧
             l = strip (get_or_empty (DictReader_row fieldnames row) (lit "link")) ∧
             t ≠ [] ∧ l ≠ []) ∧
        (length (delivered records) ≤ 1 → seen = ∅)
  end.
Proof.
  pose proof (read_existing_set_eq csv_path w) as Hload.
  destruct (data_dir w !! csv_path) as [records|]; [|done].
  exists (existing_set (Some records)). split; [done|]. split.
  - intros t l. unfold existing_set, existing_keys.
    destruct (delivered records) as [|fieldnames rows] eqn:Hd.
    + rewrite list_to_set_nil. split; [set_solver|].
      by intros (? & ? & ? & ? & _).
    + rewrite elem_of_list_to_set, list_elem_of_omap. split.
      * intros (row & Hrow & Hkey). apply seed_key_Some in Hkey.
        exists fieldnames, rows, row. naive_solver.
      * intros (fn & rows' & row & [= <- <-] & Hrow & Hkey).
        exists row. split; [done|]. by apply seed_key_Some.
  - intros Hlen. unfold existing_set, existing_keys.
    destruct (delivered records) as [|fieldnames [|row rows]]; simpl in *; try done. lia.
Qed.

(** C7 as stated fails: a reader that raises after it has delivered rows
    leaves their keys in the index. *)
Lemma load_after_failure_not_empty :
  load_fails w_broken 20240501%N ∧
  (read_existing_set 20240501%N w_broken).1 = Ok {[ (lit "T1", lit "L1") ]} ∧
  (read_existing_set 20240501%N w_broken).1 ≠ Ok ∅.
Proof.
  split; [reflexivity|].
  assert ((read_existing_set 20240501%N w_broken).1 = Ok {[ (lit "T1", lit "L1") ]}) as H.
  { rewrite read_existing_set_eq. vm_compute. reflexivity. }
  split; [done|]. rewrite H. by intros [=].
Qed.

(** C9, amended: loading the queries never gives an empty list, and it does
    not fail when the query file is absent or can be read: an absent file,
    and a file without a usable line (trimmed, not blank, not a comment),
    give the built-in list; otherwise the usable lines come back in file
    order, duplicates included. *)
Theorem load_queries_spec w :
  readable w →
  ∃ qs,
    load_queries w = (Ok qs, w) ∧ qs ≠ [] ∧
    match query_file w with
    | Some (Ok text) =>
        qs = if decide (usable_lines text = []) then DEFAULT_QUERIES else usable_lines text
    | _ => qs = DEFAULT_QUERIES
    end.
Proof.
  intros Hr. exists (queries_of (query_file w)). rewrite load_queries_eq.
  split; [|split; [apply queries_of_not_nil|]].
  - destruct (query_file w) as [[text|e]|] eqn:E; try done. by destruct (Hr e).
  - destruct (query_file w) as [[text|e]|]; try done. simpl.
    by destruct (usable_lines text).
Qed.

Lemma load_queries_spec_witness :
  readable w_AB ∧ load_queries w_AB = (Ok [lit "A"; lit "B"], w_AB).
Proof.
  assert (readable w_AB) as Hr by (by intros e).
  split; [exact Hr|].
  destruct (load_queries_spec w_AB Hr) as (qs & -> & _ & ->).
  reflexivity.
Defined.

(** C9 as stated fails: a query file that exists and cannot be read makes
    the load, and the run, raise. *)
Lemma load_queries_can_fail :
  (load_queries w_unreadable).1 = Raise UnicodeDecodeError ∧
  (collect_daily env_AB None w_unreadable).1 = Raise UnicodeDecodeError ∧
  ¬ ∃ qs, (load_queries w_unreadable).1 = Ok qs.
Proof. split; [done|]. split; [done|]. by intros (qs & ?). Qed.

(** ** The end of a run *)

(** C8: when the rows gathered by a run are none, the run writes nothing:
    no call of [append_rows], and every file, present or absent, is as it
    was.  When there are some, [append_rows] is called exactly once, with
    all of them, on the file of the day. *)
Theorem final_append env day w d batch w1 :
  gather env day w = (Ok (d, batch), w1) →
  let w' := (collect_daily env day w).2 in
  (batch = [] →
     data_dir w' = data_dir w ∧ appends (trace w') = appends (trace w)) ∧
  (batch ≠ [] →
     appends (trace w') = appends (trace w) ++ [EvAppend d batch] ∧
     data_dir w' = <[d := store_rows (data_dir w !! d) batch]> (data_dir w)).
Proof.
  intros Hg w'.
  assert (collect_daily env day w = finish d batch w1) as Hrun.
  { unfold collect_daily. by rewrite (bind_ok _ _ _ _ _ Hg). }
  destruct (gather_eq env day w) as (w1' & (Hqf & Hdd & Htr) & Hg').
  assert (w1' = w1) as ->.
  { rewrite Hg in Hg'. destruct (query_file w) as [[?|?]|]; congruence. }
  subst w'. rewrite Hrun, finish_eq. cbn [snd]. split.
  - intros ->. cbn [emit data_dir trace]. by rewrite appends_snoc.
  - intros Hne. destruct batch as [|r rows]; [done|].
    cbn [emit data_dir trace set_data_dir]. rewrite appends_snoc by done.
    unfold appends at 1. rewrite List.filter_app. fold (appends (trace w1)).
    by rewrite Htr, Hdd.
Qed.

Lemma final_append_witness :
  gather env_AB None w_AB =
    (Ok (20240501%N, batch_of env_AB None w_AB), (gather env_AB None w_AB).2) ∧
  batch_of env_AB None w_AB ≠ [] ∧
  appends (trace (collect_daily env_AB None w_AB).2) =
    appends (trace w_AB) ++ [EvAppend 20240501%N (batch_of env_AB None w_AB)].
Proof.
  assert (gather env_AB None w_AB =
            (Ok (20240501%N, batch_of env_AB None w_AB), (gather env_AB None w_AB).2))
    as Hg by (vm_compute; reflexivity).
  assert (batch_of env_AB None w_AB ≠ []) as Hne.
  { intros H. apply (f_equal length) in H. vm_compute in H. discriminate. }
  split; [exact Hg|]. split; [exact Hne|].
  exact (proj1 (proj2 (final_append env_AB None w_AB _ _ _ Hg) Hne)).
Defined.

(** ** Titles *)

(** C10: an entry whose title is empty or white space only gives no record.
    Every record the parser returns is that of a raw item of the feed, and
    its title, trimmed, is neither empty nor white space; and no row of a
    dataset written by runs has an empty or white-space title. *)
Theorem titleless_entries_never_appear :
  (∀ env xml_text q max_items w items it,
     (parse_rss env xml_text q max_items w).1 = Ok items → it ∈ items →
     forallb isspace (title it) = false ∧
     ∃ e, e ∈ raw_items env xml_text ∧
          (title it, link it, published it) = entry_of e ∧
          forallb isspace (or_empty (findtext e (lit "title"))) = false)
  ∧ (∀ w d records row,
       reachable w → data_dir w !! d = Some records → row ∈ data_rows records →
       forallb isspace (row_key row).1 = false).
Proof.
  split.
  - intros env xml_text q max_items w items it. rewrite parse_rss_eq. cbn [fst].
    intros [= <-] (_ & e & He & Ht & Hl & Hp)%stamp_elem.
    apply capped_entries_ok in He as (Hne & Hst & _ & el & Hel & ->).
    split; [rewrite Ht; by apply strip_fixed_not_space|].
    exists el. split; [done|].
    split; [rewrite Ht, Hl, Hp; by destruct (entry_of el) as [[??]?]|].
    cbn [entry_of fst] in Hne.
    destruct (forallb isspace (or_empty (findtext el (lit "title")))) eqn:E; [|done].
    by apply strip_nil in E.
  - intros w d records row Hreach Hfile Hrow.
    destruct (reachable_dir_ok w Hreach d records Hfile) as (rows & -> & Hok & _).
    rewrite data_rows_fields in Hrow.
    rewrite Forall_forall in Hok. destruct (Hok row Hrow) as (_ & Hne & Hst & _).
    by apply strip_fixed_not_space.
Qed.

Lemma titleless_entries_never_appear_witness :
  (parse_rss env_blank_first (lit "<feed>") (lit "Q") 3 w_fresh).1 =
    Ok (stamp env_blank_first (lit "Q") 0
          [(lit "T1", lit "L1", []); (lit "T2", lit "L2", [])])
  ∧ reachable (collect_daily env_AB None w_AB).2
  ∧ Forall (λ row, forallb isspace (row_key row).1 = false)
      (day_rows (collect_daily env_AB None w_AB).2 20240501%N).
Proof.
  split; [by vm_compute|]. split; [apply reachable_run, reachable_start; done|].
  apply Forall_forall. intros row Hrow.
  apply (proj2 titleless_entries_never_appear (collect_daily env_AB None w_AB).2 20240501%N
           (default [] (data_dir (collect_daily env_AB None w_AB).2 !! 20240501%N)) row).
  - apply reachable_run, reachable_start. done.
  - vm_compute. reflexivity.
  - exact Hrow.
Defined.

(** ** The scenario of two queries *)

(** C4: the queries are [A] and [B]; the feed of [A] has the entries
    (T1, L1) and (T2, L2), the feed of [B] has (T1, L1) again and an entry
    without a title; there is no dataset for the day.  The run leaves a file
    with the header and exactly two rows, (T1, L1) and (T2, L2), both of
    query [A], in this order. *)
Theorem scenario_two_queries env day w A B rA rB T1 L1 P1 T2 L2 P2 P1' E L3 P3 :
  let d := target_day env day w in
  let c := clock_after_day day w in
  let n := http_requests w in
  readable w →
  queries_of (query_file w) = [A; B] →
  data_dir w !! d = None →
  upstream env n (google_news_rss_url env A (lit "ja") (lit "JP")) = Ok rA →
  upstream env (S n) (google_news_rss_url env B (lit "ja") (lit "JP")) = Ok rB →
  status_code rA = 200%Z → status_code rB = 200%Z →
  ET_fromstring env (resp_text rA) =
    Some (rss_feed [rss_item T1 L1 P1; rss_item T2 L2 P2]) →
  ET_fromstring env (resp_text rB) =
    Some (rss_feed [rss_item T1 L1 P1'; rss_item E L3 P3]) →
  (2 ≤ MAX_ITEMS_PER_QUERY env)%Z →
  strip T1 ≠ [] → strip T2 ≠ [] → strip E = [] →
  (strip T1, strip L1) ≠ (strip T2, strip L2) →
  data_dir (collect_daily env day w).2 !! d =
    Some [ Fields header;
           Fields [lit "GoogleNews:" ++ A; A; strip T1; strip L1; strip P1; clock_iso env c];
           Fields [lit "GoogleNews:" ++ A; A; strip T2; strip L2; strip P2;
                   clock_iso env (S c)] ].
Proof.
  intros d c n Hread Hqs Hfile HupA HupB HstA HstB HxmlA HxmlB Hmax HT1 HT2 HE Hkeys.
  assert (response_entries env n A =
            [(strip T1, strip L1, strip P1); (strip T2, strip L2, strip P2)]) as HeA.
  { unfold response_entries. rewrite HupA, HstA. cbn [andb Z.leb Z.ltb Z.compare Pos.compare
      Pos.compare_cont]. simpl.
    rewrite (raw_items_rss_feed2 _ _ _ _ HxmlA) by done.
    unfold capped_entries. rewrite slice_to_all by (simpl; lia).
    rewrite !fmap_cons, !entry_of_rss_item. simpl.
    unfold has_title. simpl.
    apply truthy_true in HT1, HT2. by rewrite HT1, HT2. }
  assert (response_entries env (S n) B = [(strip T1, strip L1, strip P1')]) as HeB.
  { unfold response_entries. rewrite HupB, HstB. simpl.
    rewrite (raw_items_rss_feed2 _ _ _ _ HxmlB) by done.
    unfold capped_entries. rewrite slice_to_all by (simpl; lia).
    rewrite !fmap_cons, !entry_of_rss_item. simpl.
    unfold has_title. simpl.
    apply truthy_true in HT1. by rewrite HT1, HE. }
  assert (kept_of env day w =
            [ mkNewsItem A (strip T1) (strip L1) (strip P1) (clock_iso env c);
              mkNewsItem A (strip T2) (strip L2) (strip P2) (clock_iso env (S c)) ]) as Hkept.
  { unfold kept_of, run_candidates. fold d c n. rewrite Hqs, Hfile.
    cbn [candidates]. rewrite HeA, HeB. cbn [stamp app length fst snd existing_set].
    by apply fresh_three. }
  rewrite collect_daily_data_dir. unfold d at 1.
  rewrite next_data_dir_lookup; [|done|unfold batch_of; by rewrite Hkept].
  fold d. rewrite Hfile. unfold batch_of. rewrite Hkept.
  unfold store_rows. cbn [fmap list_fmap app]. by rewrite !row_cells_as_row.
Qed.

Lemma scenario_two_queries_witness :
  data_dir (collect_daily env_AB None w_AB).2 !! 20240501%N =
    Some [ Fields header;
           Fields [lit "GoogleNews:A"; lit "A"; lit "T1"; lit "L1"; lit "Mon";
                   lit "2024-05-01T09:00:01"];
           Fields [lit "GoogleNews:A"; lit "A"; lit "T2"; lit "L2"; lit "Tue";
                   lit "2024-05-01T09:00:02"] ].
Proof.
  refine (scenario_two_queries env_AB None w_AB (lit "A") (lit "B")
            (mkResponse 200 (lit "<feed A>")) (mkResponse 200 (lit "<feed B>"))
            (lit "T1") (lit "L1") (lit "Mon") (lit "T2") (lit "L2") (lit "Tue")
            (lit "Mon") (lit " ") (lit "L3") (lit "Wed")
            _ _ _ _ _ _ _ _ _ _ _ _ _ _);
    try reflexivity; try (vm_compute; discriminate).
Defined.

(** ** Duplicates across runs *)

(** C1 as stated fails.  A record without a link is written again by the
    next run, so after two runs the day has two rows with the same key.
    And a row that has a link is written again too when one of its fields
    is longer than the reader takes: the next run cannot read the row back,
    and the key is not in its index. *)
Lemma rows_without_link_are_duplicated :
  (reachable w_nolink_twice ∧
   ¬ no_shared_key (day_rows w_nolink_twice 20240501%N))
  ∧ (reachable w_long_twice ∧
     ¬ NoDup (filter linked (row_key <$> day_rows w_long_twice 20240501%N))).
Proof.
  split; split.
  - apply reachable_run, reachable_run, reachable_start. reflexivity.
  - intros H.
    assert (∃ r1 r2, day_rows w_nolink_twice 20240501%N !! 0 = Some r1 ∧
                     day_rows w_nolink_twice 20240501%N !! 1 = Some r2 ∧
                     row_key r1 = row_key r2) as (r1 & r2 & H1 & H2 & Hk).
    { eexists _, _. vm_compute. done. }
    specialize (H 0 1 r1 r2 H1 H2 Hk). discriminate H.
  - apply reachable_long_twice.
  - rewrite (proj2 long_rows_twice).
    rewrite !fmap_cons, filter_cons, decide_True by done.
    rewrite filter_cons, decide_True by done.
    intros [Hnot _]%NoDup_cons. apply Hnot. left.
Qed.

(** C1, amended: in the dataset of any day, after any sequence of runs from
    no dataset, no two rows that have a link share the key (title, link),
    provided no field of the day's rows is over the reader's field limit. *)
Theorem no_duplicate_linked_keys w d records :
  reachable w → data_dir w !! d = Some records →
  Forall row_short (data_rows records) →
  NoDup (filter linked (row_key <$> data_rows records)) ∧
  ∀ i j r1 r2,
    data_rows records !! i = Some r1 → data_rows records !! j = Some r2 →
    linked (row_key r1) → row_key r1 = row_key r2 → i = j.
Proof.
  intros Hreach Hfile.
  destruct (reachable_dir_ok w Hreach d records Hfile) as (rows & -> & _ & Hnd).
  rewrite data_rows_fields. intros Hnd'%Hnd. split; [done|].
  intros i j r1 r2. by apply NoDup_linked_rows.
Qed.

Lemma no_duplicate_linked_keys_witness :
  reachable (collect_daily env_AB None w_AB).2 ∧
  Forall row_short (day_rows (collect_daily env_AB None w_AB).2 20240501%N) ∧
  NoDup (filter linked (row_key <$> day_rows (collect_daily env_AB None w_AB).2 20240501%N)).
Proof.
  assert (reachable (collect_daily env_AB None w_AB).2) as Hr
    by (apply reachable_run, reachable_start; reflexivity).
  assert (Forall row_short (day_rows (collect_daily env_AB None w_AB).2 20240501%N)) as Hs.
  { assert (day_rows (collect_daily env_AB None w_AB).2 20240501%N =
              [ [lit "GoogleNews:A"; lit "A"; lit "T1"; lit "L1"; lit "Mon";
                 lit "2024-05-01T09:00:01"];
                [lit "GoogleNews:A"; lit "A"; lit "T2"; lit "L2"; lit "Tue";
                 lit "2024-05-01T09:00:02"] ]) as -> by (vm_compute; reflexivity).
    repeat constructor. }
  split; [exact Hr|]. split; [exact Hs|].
  refine (proj1 (no_duplicate_linked_keys (collect_daily env_AB None w_AB).2 20240501%N
                   (default [] (data_dir (collect_daily env_AB None w_AB).2 !! 20240501%N))
                   Hr _ Hs)).
  vm_compute. reflexivity.
Defined.

(** C2 as stated fails.  With the same answers from upstream, a second run
    appends again a record that has no link; it appends again a record that
    has a link when a field of its row is longer than the reader takes; and
    on a file of the day that was there and empty, which gets no header,
    it appends again the record of the first row. *)
Lemma second_run_can_add_rows :
  (fixed_upstream env_nolink ∧ reachable w_Q ∧
   length (day_rows w_nolink_once 20240501%N) = 1 ∧
   length (day_rows w_nolink_twice 20240501%N) = 2)
  ∧ (fixed_upstream (env_one long_title (lit "L")) ∧ reachable w_Q ∧
     Forall (λ it, link it ≠ [])
       (kept_of (env_one long_title (lit "L")) (Some 20240501%N) w_Q) ∧
     length (day_rows w_long_once 20240501%N) = 1 ∧
     length (day_rows w_long_twice 20240501%N) = 2)
  ∧ (fixed_upstream (env_one (lit "T") (lit "L")) ∧
     Forall (λ it, link it ≠ [])
       (kept_of (env_one (lit "T") (lit "L")) (Some 20240501%N) w_empty_file) ∧
     data_dir w_empty_file_once !! 20240501%N =
       Some [Fields (row_one (lit "T") (lit "L"))] ∧
     data_dir w_empty_file_twice !! 20240501%N =
       Some [Fields (row_one (lit "T") (lit "L")); Fields (row_one (lit "T") (lit "L"))]).
Proof.
  assert (reachable w_Q) as Hr by (by apply reachable_start).
  split; [|split].
  - split; [by intros n m url|]. split; [done|]. split; by vm_compute.
  - split; [by intros n m url|]. split; [done|]. split.
    + rewrite (one_entry_kept long_title (lit "L") long_title_strip long_title_not_nil
                 eq_refl w_Q eq_refl) by apply not_elem_of_empty.
      by repeat constructor.
    + by rewrite (proj1 long_rows_twice), (proj2 long_rows_twice).
  - split; [by intros n m url|]. split.
    + rewrite (one_entry_kept (lit "T") (lit "L") eq_refl ltac:(done) eq_refl
                 w_empty_file eq_refl) by apply not_elem_of_empty.
      by repeat constructor.
    + split; by vm_compute.
Qed.

(** C2, amended: from no dataset or one that earlier runs have written, when
    every record the first run keeps has a link and no field of the day's
    rows after it is over the reader's field limit, a second run for the
    same date against the same upstream answers appends nothing: no call of
    [append_rows], the same files, the same number of rows. *)
Theorem second_run_adds_nothing env d w :
  fixed_upstream env → reachable w →
  Forall (λ it, link it ≠ []) (kept_of env (Some d) w) →
  Forall row_short (day_rows (collect_daily env (Some d) w).2 d) →
  let w1 := (collect_daily env (Some d) w).2 in
  let w2 := (collect_daily env (Some d) w1).2 in
  data_dir w2 = data_dir w1 ∧
  appends (trace w2) = appends (trace w1) ∧
  length (day_rows w2 d) = length (day_rows w1 d).
Proof.
  intros Hfix Hreach Hlinks Hshort w1 w2.
  assert (data_dir w2 = data_dir w1 ∧ appends (trace w2) = appends (trace w1)) as [Hdd Htr].
  { subst w2. rewrite collect_daily_data_dir, collect_daily_appends.
    assert (query_file w1 = query_file w) as Hqf by apply collect_daily_query_file.
    destruct (query_file w) as [[text|e]|] eqn:E.
    - assert (batch_of env (Some d) w1 = []) as Hnil.
      { apply second_batch_nil; try done; [by apply reachable_dir_ok|].
        intros e. by rewrite E. }
      rewrite (next_data_dir_nil _ _ _ Hnil), Hnil, Hqf. by rewrite app_nil_r.
    - unfold next_data_dir. rewrite Hqf. by rewrite app_nil_r.
    - assert (batch_of env (Some d) w1 = []) as Hnil.
      { apply second_batch_nil; try done; [by apply reachable_dir_ok|].
        intros e. by rewrite E. }
      rewrite (next_data_dir_nil _ _ _ Hnil), Hnil, Hqf. by rewrite app_nil_r. }
  split; [done|]. split; [done|]. unfold day_rows. by rewrite Hdd.
Qed.

Lemma second_run_adds_nothing_witness :
  fixed_upstream env_AB ∧ reachable w_AB ∧
  Forall (λ it, link it ≠ []) (kept_of env_AB (Some 20240501%N) w_AB) ∧
  Forall row_short (day_rows (collect_daily env_AB (Some 20240501%N) w_AB).2 20240501%N) ∧
  length (day_rows (collect_daily env_AB (Some 20240501%N) w_AB).2 20240501%N) = 2 ∧
  length (day_rows (collect_daily env_AB (Some 20240501%N)
                      (collect_daily env_AB (Some 20240501%N) w_AB).2).2 20240501%N) =
    length (day_rows (collect_daily env_AB (Some 20240501%N) w_AB).2 20240501%N).
Proof.
  assert (fixed_upstream env_AB) as Hfix by (by intros n m url).
  assert (reachable w_AB) as Hr by (by apply reachable_start).
  assert (Forall (λ it, link it ≠ []) (kept_of env_AB (Some 20240501%N) w_AB)) as Hl.
  { apply Forall_forall. intros it Hit.
    assert (kept_of env_AB (Some 20240501%N) w_AB =
              stamp env_AB (lit "A") 0
                [(lit "T1", lit "L1", lit "Mon"); (lit "T2", lit "L2", lit "Tue")]) as Hk
      by (vm_compute; reflexivity).
    rewrite Hk in Hit. cbn [stamp] in Hit.
    apply elem_of_cons in Hit as [->|Hit]; [done|].
    apply elem_of_cons in Hit as [->|Hit]; [done|].
    by apply elem_of_nil in Hit. }
  assert (day_rows (collect_daily env_AB (Some 20240501%N) w_AB).2 20240501%N =
            [ [lit "GoogleNews:A"; lit "A"; lit "T1"; lit "L1"; lit "Mon";
               lit "2024-05-01T09:00:00"];
              [lit "GoogleNews:A"; lit "A"; lit "T2"; lit "L2"; lit "Tue";
               lit "2024-05-01T09:00:01"] ]) as Hrows by (vm_compute; reflexivity).
  assert (Forall row_short
            (day_rows (collect_daily env_AB (Some 20240501%N) w_AB).2 20240501%N)) as Hs.
  { rewrite Hrows. repeat constructor. }
  split; [exact Hfix|]. split; [exact Hr|]. split; [exact Hl|]. split; [exact Hs|].
  split; [by rewrite Hrows|].
  exact (proj2 (proj2 (second_run_adds_nothing env_AB 20240501%N w_AB Hfix Hr Hl Hs))).
Defined.

(** C3: the index loaded for a day never holds the key of a row whose link
    is empty.  So when a candidate of a run has title [t] and no link, the
    run keeps exactly one record with that key, whatever the file already
    holds, and appends its row with the others it has kept. *)
Theorem empty_link_rows_reappended env day w t :
  readable w →
  (t, []) ∈ item_key <$> run_candidates env day w →
  let d := target_day env day w in
  read_existing_set d w = (Ok (existing_set (data_dir w !! d)), w) ∧
  ((t, []) ∉ existing_set (data_dir w !! d)) ∧
  length (filter (λ it, item_key it = (t, [])) (kept_of env day w)) = 1 ∧
  data_dir (collect_daily env day w).2 !! d =
    Some (store_rows (data_dir w !! d) (as_row <$> kept_of env day w)).
Proof.
  intros Hread Hcand d.
  assert ((t, []) ∉ existing_set (data_dir w !! d)) as Hnot.
  { intros H%existing_set_linked. naive_solver. }
  assert (length (filter (λ it, item_key it = (t, [])) (kept_of env day w)) = 1) as Hone
    by (by apply fresh_once).
  split; [apply read_existing_set_eq|]. split; [done|]. split; [done|].
  rewrite collect_daily_data_dir. unfold d.
  rewrite next_data_dir_lookup; [done|done|].
  unfold batch_of. intros Hnil%fmap_nil_inv. by rewrite Hnil in Hone.
Qed.

Lemma empty_link_rows_reappended_witness :
  readable w_nolink_once ∧
  data_rows (default [] (data_dir w_nolink_once !! 20240501%N)) =
    [[lit "GoogleNews:Q"; lit "Q"; lit "T"; []; []; lit "2024-05-01T09:00:00"]] ∧
  ((lit "T", []) ∉ existing_set (data_dir w_nolink_once !! 20240501%N)) ∧
  length (filter (λ it, item_key it = (lit "T", []))
            (kept_of env_nolink (Some 20240501%N) w_nolink_once)) = 1.
Proof.
  assert (readable w_nolink_once) as Hr by (by intros e).
  split; [exact Hr|]. split; [by vm_compute|].
  assert ((lit "T", []) ∈ item_key <$>
            run_candidates env_nolink (Some 20240501%N) w_nolink_once) as Hc.
  { assert (item_key <$> run_candidates env_nolink (Some 20240501%N) w_nolink_once =
              [(lit "T", [])]) as -> by (vm_compute; reflexivity).
    left. }
  pose proof (empty_link_rows_reappended env_nolink (Some 20240501%N) w_nolink_once
                (lit "T") Hr Hc) as (_ & Hnot & Hone & _).
  split; [exact Hnot|exact Hone].
Defined.

(** * Further properties of the script *)

(** ** The parser *)

Lemma length_filter_le {A} (f : A → bool) (l : list A) :
  length (List.filter f l) ≤ length l.
Proof. induction l as [|a l IH]; simpl; [done|]. destruct (f a); simpl; lia. Qed.

Lemma length_slice_to_le {A} (l : list A) (n : Z) : length (slice_to l n) ≤ length l.
Proof. unfold slice_to. destruct (n <? 0)%Z; rewrite length_take; lia. Qed.

(** X1: with a cap that is not negative, [parse_rss] returns at most
    [max_items] records, and never more than the feed has items. *)
Theorem parse_rss_at_most_max env xml_text q max_items w items :
  (0 ≤ max_items)%Z →
  (parse_rss env xml_text q max_items w).1 = Ok items →
  (Z.of_nat (length items) ≤ max_items)%Z ∧
  length items ≤ length (raw_items env xml_text).
Proof.
  intros Hmax. rewrite parse_rss_eq. cbn [fst]. intros [= <-].
  rewrite length_stamp. unfold capped_entries.
  pose proof (length_filter_le has_title
                (entry_of <$> slice_to (raw_items env xml_text) max_items)) as H.
  rewrite length_fmap in H.
  pose proof (length_slice_to_le (raw_items env xml_text) max_items) as H'.
  split; [|lia].
  assert (length (slice_to (raw_items env xml_text) max_items) ≤ Z.to_nat max_items).
  { unfold slice_to. destruct (max_items <? 0)%Z eqn:E; [lia|].
    rewrite length_take. lia. }
  lia.
Qed.

Lemma parse_rss_at_most_max_witness :
  (0 ≤ 2)%Z ∧
  (parse_rss env_blank_first (lit "<feed>") (lit "Q") 2 w_fresh).1 =
    Ok (stamp env_blank_first (lit "Q") 0 [(lit "T1", lit "L1", [])]) ∧
  (Z.of_nat (length (stamp env_blank_first (lit "Q") 0 [(lit "T1", lit "L1", [])])) ≤ 2)%Z.
Proof.
  assert ((parse_rss env_blank_first (lit "<feed>") (lit "Q") 2 w_fresh).1 =
            Ok (stamp env_blank_first (lit "Q") 0 [(lit "T1", lit "L1", [])])) as H
    by (vm_compute; reflexivity).
  split; [lia|]. split; [exact H|].
  exact (proj1 (parse_rss_at_most_max env_blank_first (lit "<feed>") (lit "Q") 2 w_fresh _
                  ltac:(lia) H)).
Defined.

Lemma stamp_lookup env q c es k it :
  stamp env q c es !! k = Some it →
  ∃ e, es !! k = Some e ∧
       it = mkNewsItem q e.1.1 e.1.2 e.2 (clock_iso env (c + k)).
Proof.
  revert c k. induction es as [|e es IH]; intros c k; [done|].
  destruct k as [|k]; simpl.
  - intros [= <-]. exists e. by rewrite Nat.add_0_r.
  - intros H. destruct (IH _ _ H) as (e' & He' & ->). exists e'.
    split; [done|]. do 2 f_equal. lia.
Qed.

(** X2: every record of [parse_rss] carries the query it was called with
    and trimmed fields, the k-th record is stamped with the k-th reading of
    the clock after the call, and the call reads the clock once per record
    and touches nothing else. *)
Theorem parse_rss_records env xml_text q max_items w :
  ∃ items,
    parse_rss env xml_text q max_items w = (Ok items, advance_clock (length items) w) ∧
    ∀ k it, items !! k = Some it →
      query it = q ∧
      collected_jst it = clock_iso env (clock_reads w + k) ∧
      title it ≠ [] ∧ strip (title it) = title it ∧
      strip (link it) = link it ∧ strip (published it) = published it.
Proof.
  eexists. split.
  - rewrite parse_rss_eq. by rewrite length_stamp.
  - intros k it (e & He & ->)%stamp_lookup. cbn.
    apply list_elem_of_lookup_2 in He.
    unfold capped_entries in He.
    apply list_elem_of_In, List.filter_In in He as [He Ht].
    apply list_elem_of_In, list_elem_of_fmap in He as (el & -> & _).
    unfold has_title in Ht. apply truthy_true in Ht.
    repeat split; try done; apply strip_idem.
Qed.

(** X3: the cap follows Python's slice: a cap of zero returns no record,
    and a negative cap [-k] cuts the last [k] raw items instead of the
    tail after the first ones. *)
Theorem parse_rss_cap_not_positive env xml_text q w :
  (parse_rss env xml_text q 0 w).1 = Ok [] ∧
  ∀ k : nat, 0 < k →
    (parse_rss env xml_text q (- Z.of_nat k) w).1 =
      Ok (stamp env q (clock_reads w)
            (List.filter has_title
               (entry_of <$> take (length (raw_items env xml_text) - k)
                               (raw_items env xml_text)))).
Proof.
  split.
  - by rewrite parse_rss_eq.
  - intros k Hk. rewrite parse_rss_eq. unfold capped_entries, slice_to. cbn [fst].
    rewrite (proj2 (Z.ltb_lt (- Z.of_nat k) 0)) by lia.
    by replace (Z.to_nat (Z.of_nat (length (raw_items env xml_text)) + - Z.of_nat k))
      with (length (raw_items env xml_text) - k) by lia.
Qed.

Lemma parse_rss_cap_not_positive_witness :
  (parse_rss env_blank_first (lit "<feed>") (lit "Q") (-1) w_fresh).1 =
    Ok (stamp env_blank_first (lit "Q") 0 [(lit "T1", lit "L1", [])]).
Proof.
  etrans;
    [exact (proj2 (parse_rss_cap_not_positive env_blank_first (lit "<feed>") (lit "Q") w_fresh)
              1 ltac:(lia))|].
  vm_compute. reflexivity.
Defined.

(** ** The query file *)

Lemma filter_sublist {A} (f : A → bool) (l : list A) : List.filter f l `sublist_of` l.
Proof.
  induction l as [|a l IH]; simpl; [constructor|].
  destruct (f a); [by apply sublist_skip|by apply sublist_cons].
Qed.

(** X4: [load_queries_from_file] gives no query when there is no file, and
    raises what reading the file raises.  From a file it returns exactly
    the lines of the file, trimmed, that are neither empty nor comments, in
    file order and with their repetitions; so each of them is non-empty,
    trimmed, and does not start with the comment mark, also when the mark
    follows white space in the file. *)
Theorem load_queries_from_file_lines w :
  match query_file w with
  | None => load_queries_from_file w = (Ok [], w)
  | Some (Raise e) => load_queries_from_file w = (Raise e, w)
  | Some (Ok text) =>
      ∃ qs, load_queries_from_file w = (Ok qs, w) ∧
            qs = List.filter (λ s, truthy s && negb (startswith s (lit "#")))
                   (strip <$> splitlines text) ∧
            qs `sublist_of` (strip <$> splitlines text) ∧
            Forall (λ q, q ≠ [] ∧ strip q = q ∧ startswith q (lit "#") = false) qs
  end.
Proof.
  destruct (query_file w) as [[text|e]|] eqn:E.
  - exists (usable_lines text). split; [by apply load_queries_from_file_ok|].
    split; [done|]. split; [apply filter_sublist|].
    apply Forall_forall. intros q Hq.
    apply list_elem_of_In, List.filter_In in Hq as [Hq Hu].
    apply list_elem_of_In, list_elem_of_fmap in Hq as (l & -> & _).
    unfold usable in Hu. apply andb_prop in Hu as [Ht Hs].
    apply truthy_true in Ht. apply negb_true_iff in Hs.
    split; [done|]. split; [apply strip_idem|done].
  - unfold load_queries_from_file, bind, gets. by rewrite E.
  - unfold load_queries_from_file, bind, gets. by rewrite E.
Qed.

Lemma load_queries_from_file_lines_witness :
  load_queries_from_file w_AB = (Ok [lit "A"; lit "B"], w_AB) ∧
  load_queries_from_file
    (mkWorld (Some (Ok (lit "x" ++ [10%N] ++ lit "  # y" ++ [10%N; 10%N] ++ lit " x ")))
       ∅ 0 0 []) =
    (Ok [lit "x"; lit "x"],
     mkWorld (Some (Ok (lit "x" ++ [10%N] ++ lit "  # y" ++ [10%N; 10%N] ++ lit " x ")))
       ∅ 0 0 []).
Proof.
  split.
  - destruct (load_queries_from_file_lines w_AB) as (qs & -> & -> & _). reflexivity.
  - reflexivity.
Defined.

(** ** The duplicate filter *)

Lemma fresh_first seen items it :
  it ∈ fresh seen items →
  ∃ pre post, items = pre ++ it :: post ∧
              ∀ x, x ∈ pre → item_key x ≠ item_key it.
Proof.
  revert seen. induction items as [|a items IH]; intros seen; cbn [fresh].
  - by intros ?%elem_of_nil.
  - destruct (decide (item_key a ∈ seen)) as [Ha|Ha].
    + intros Hin. pose proof (fresh_not_seen _ _ _ Hin) as Hnot.
      destruct (IH _ Hin) as (pre & post & -> & Hpre).
      exists (a :: pre), post. split; [done|].
      intros x [->|Hx]%elem_of_cons; [congruence|by apply Hpre].
    + intros [->|Hin]%elem_of_cons.
      * exists [], items. split; [done|]. by intros x ?%elem_of_nil.
      * pose proof (fresh_not_seen _ _ _ Hin) as Hnot.
        destruct (IH _ Hin) as (pre & post & -> & Hpre).
        exists (a :: pre), post. split; [done|].
        intros x [->|Hx]%elem_of_cons; [|by apply Hpre].
        intros Heq. apply Hnot. rewrite <- Heq.
        by apply elem_of_union_l, elem_of_singleton.
Qed.

(** X5: the duplicate filter of [collect_daily].  It keeps records in the
    order of its input, with pairwise different keys, none of them in the
    index before; the record kept for a key is the first of the input with
    that key; and the index afterwards holds the old keys and the key of
    every input record, kept or not. *)
Theorem dedup_spec items seen :
  let seen' := (dedup items seen []).1 in
  let new_items := (dedup items seen []).2 in
  new_items `sublist_of` items ∧
  NoDup (item_key <$> new_items) ∧
  (∀ it, it ∈ new_items →
     (item_key it ∉ seen) ∧
     ∃ pre post, items = pre ++ it :: post ∧ ∀ x, x ∈ pre → item_key x ≠ item_key it) ∧
  (∀ it, it ∈ items → item_key it ∉ seen →
         ∃ it', it' ∈ new_items ∧ item_key it' = item_key it) ∧
  seen' = list_to_set (item_key <$> items) ∪ seen.
Proof.
  rewrite dedup_eq. cbn [fst snd app].
  split; [apply fresh_sublist|]. split; [apply fresh_NoDup|]. split; [|split; [|done]].
  - intros it Hit. split; [by eapply fresh_not_seen|by eapply fresh_first].
  - intros it Hit Hnot.
    assert (item_key it ∈ item_key <$> fresh seen items) as Hk.
    { pose proof (fresh_covers seen items) as Hc.
      assert (item_key it ∈ list_to_set (item_key <$> items) ∪ seen) as Hin.
      { apply elem_of_union_l, elem_of_list_to_set, list_elem_of_fmap. by exists it. }
      rewrite <- Hc in Hin. apply elem_of_union in Hin as [Hin|Hin]; [|done].
      by apply elem_of_list_to_set in Hin. }
    apply list_elem_of_fmap in Hk as (it' & Hk & Hit'). by exists it'.
Qed.

(** X6: filtering the same records once more against the index the filter
    has left keeps none of them and leaves the index as it is. *)
Theorem dedup_again_keeps_nothing items seen :
  dedup items (dedup items seen []).1 [] = ((dedup items seen []).1, []).
Proof.
  rewrite !dedup_eq. cbn [fst app].
  rewrite fresh_all_seen.
  - f_equal. rewrite (assoc_L (∪)). f_equal. apply union_idemp_L.
  - intros it Hit. apply elem_of_union_l, elem_of_list_to_set, list_elem_of_fmap.
    by exists it.
Qed.

(** ** The request *)

(** X7: two queries whose encodings by [quote_plus] differ are fetched from
    different URLs, for any language and country. *)
Theorem google_news_rss_url_injective env q1 q2 lang country :
  quote_plus env q1 ≠ quote_plus env q2 →
  google_news_rss_url env q1 lang country ≠ google_news_rss_url env q2 lang country.
Proof.
  intros Hne Heq. apply Hne. unfold google_news_rss_url in Heq.
  apply app_inv_head in Heq. by apply app_inv_tail in Heq.
Qed.

Lemma google_news_rss_url_injective_witness :
  google_news_rss_url env_AB (lit "A") (lit "ja") (lit "JP") ≠
    google_news_rss_url env_AB (lit "B") (lit "ja") (lit "JP").
Proof.
  apply google_news_rss_url_injective. vm_compute. discriminate.
Defined.

(** ** One query of a run *)

(** X8: a request that fails is caught in the loop body.  When the request
    of a query fails (the transport raises, or the status is 4xx or 5xx) and
    the body gets to its end, the index and the rows gathered so far are as
    they were, no file has changed, the clock was not read, and the body
    has logged the request, a warning with the kind of the failure, the
    line of the query with zero records, and the pause, in this order. *)
Theorem query_step_failure_isolated env n seen rows i q w e acc w' :
  request_fails env (http_requests w) q e →
  query_step env n (seen, rows) (i, q) w = (Ok acc, w') →
  acc = (seen, rows) ∧
  data_dir w' = data_dir w ∧ query_file w' = query_file w ∧
  clock_reads w' = clock_reads w ∧
  trace w' = trace w ++
    [ EvGet (google_news_rss_url env q (lit "ja") (lit "JP"));
      EvPrint (MsgWarn q e); EvPrint (MsgOk i n q 0 0); EvSleep ].
Proof.
  intros Hfail. unfold request_fails in Hfail. unfold query_step.
  unfold bind at 1. rewrite try_eq.
  unfold session_get, bind, gets, modify, print.
  destruct (upstream env (http_requests w) _) as [r|e']; simpl.
  - destruct Hfail as [Hst ->]. unfold raise_for_status.
    assert (((400 <=? status_code r) && (status_code r <? 600))%Z = true) as ->
      by (apply andb_true_intro; split; [apply Z.leb_le|apply Z.ltb_lt]; lia).
    simpl. rewrite app_nil_r. intros [= <- <-]. simpl.
    by rewrite <- !app_assoc.
  - subst e'. rewrite app_nil_r. intros [= <- <-]. simpl.
    by rewrite <- !app_assoc.
Qed.

Lemma query_step_failure_isolated_witness :
  request_fails env_down 0 (lit "Q") Timeout ∧
  query_step env_down 1 (∅, []) (1, lit "Q") w_fresh =
    (Ok (∅, []),
     mkWorld None ∅ 0 1
       [ EvGet (url_of (lit "Q")); EvPrint (MsgWarn (lit "Q") Timeout);
         EvPrint (MsgOk 1 1 (lit "Q") 0 0); EvSleep ]) ∧
  trace (query_step env_down 1 (∅, []) (1, lit "Q") w_fresh).2 =
    [ EvGet (url_of (lit "Q")); EvPrint (MsgWarn (lit "Q") Timeout);
      EvPrint (MsgOk 1 1 (lit "Q") 0 0); EvSleep ].
Proof.
  assert (request_fails env_down (http_requests w_fresh) (lit "Q") Timeout) as Hf
    by reflexivity.
  assert (query_step env_down 1 (∅, []) (1, lit "Q") w_fresh =
            (Ok (∅, []),
             mkWorld None ∅ 0 1
               [ EvGet (url_of (lit "Q")); EvPrint (MsgWarn (lit "Q") Timeout);
                 EvPrint (MsgOk 1 1 (lit "Q") 0 0); EvSleep ])) as Hs by reflexivity.
  split; [exact Hf|]. split; [exact Hs|].
  rewrite Hs.
  exact (proj2 (proj2 (proj2 (proj2
           (query_step_failure_isolated env_down 1 ∅ [] 1 (lit "Q") w_fresh Timeout _ _
              Hf Hs))))).
Defined.

(** ** The whole run *)

Lemma pacing_app t1 t2 : pacing (t1 ++ t2) = pacing t1 ++ pacing t2.
Proof. unfold pacing. by rewrite List.filter_app. Qed.

Lemma pacing_print m w : pacing (trace (emit (EvPrint m) w)) = pacing (trace w).
Proof. cbn [trace emit]. rewrite pacing_app. cbn. by rewrite app_nil_r. Qed.

(** The loop body makes the request of its query and then pauses. *)
Lemma query_step_pacing env n acc i q w :
  pacing (trace (query_step env n acc (i, q) w).2) =
    pacing (trace w) ++ [EvGet (google_news_rss_url env q (lit "ja") (lit "JP")); EvSleep].
Proof.
  destruct acc as [seen rows]. unfold query_step.
  unfold bind at 1. rewrite try_eq.
  unfold session_get, bind, gets, modify, print.
  destruct (upstream env (http_requests w) _) as [r|e]; simpl.
  - unfold raise_for_status.
    destruct ((400 <=? status_code r)%Z && (status_code r <? 600)%Z); simpl.
    + rewrite !pacing_app. cbn. by rewrite !app_nil_r, <- app_assoc.
    + rewrite parse_rss_eq. simpl. rewrite dedup_eq. simpl.
      rewrite !pacing_app. cbn. by rewrite !app_nil_r, <- app_assoc.
  - rewrite !pacing_app. cbn. by rewrite !app_nil_r, <- app_assoc.
Qed.

Lemma query_loop_pacing env n (l : list (nat * str)) acc w :
  pacing (trace (for_acc l (query_step env n) acc w).2) =
    pacing (trace w) ++
      (l ≫= λ iq, [EvGet (google_news_rss_url env iq.2 (lit "ja") (lit "JP")); EvSleep]).
Proof.
  revert acc w. induction l as [|[i q] l IH]; intros acc w.
  - cbn. by rewrite app_nil_r.
  - cbn [for_acc]. destruct acc as [seen rows].
    destruct (query_step_eq env n seen rows i q w) as (w1 & Hstep & _).
    pose proof (query_step_pacing env n (seen, rows) i q w) as Hp.
    rewrite Hstep in Hp. cbn [snd] in Hp.
    rewrite (bind_ok _ _ _ _ _ Hstep), IH, Hp.
    rewrite bind_cons. cbn [snd]. by rewrite <- !app_assoc.
Qed.

Lemma bind_zip_snd env (qs : list str) k :
  (zip (seq k (length qs)) qs ≫=
     λ iq, [EvGet (google_news_rss_url env iq.2 (lit "ja") (lit "JP")); EvSleep]) =
  (qs ≫= λ q, [EvGet (google_news_rss_url env q (lit "ja") (lit "JP")); EvSleep]).
Proof.
  revert k. induction qs as [|q qs IH]; intros k; [done|].
  cbn [length seq zip zip_with]. by rewrite !bind_cons, IH.
Qed.

Lemma gather_pacing env day w :
  readable w →
  pacing (trace (gather env day w).2) =
    pacing (trace w) ++
      (queries_of (query_file w) ≫=
         λ q, [EvGet (google_news_rss_url env q (lit "ja") (lit "JP")); EvSleep]).
Proof.
  intros Hread. unfold gather.
  set (w0 := match day with Some _ => w | None => tick_clock w end).
  assert (match day with Some d => ret d | None => jst_today env end w =
          (Ok (target_day env day w), w0)) as Hday by (by destruct day).
  assert (trace w0 = trace w ∧ query_file w0 = query_file w) as [Htr Hqf]
    by (subst w0; by destruct day).
  rewrite (bind_ok _ _ _ _ _ Hday).
  unfold bind at 1. rewrite load_queries_eq, Hqf.
  assert (∀ qs, pacing (trace
            ((seen <- read_existing_set (target_day env day w) ;;
              print (MsgDaily (target_day env day w) (length qs)) ;;;
              from_file <- gets (λ w, bool_decide (is_Some (query_file w))) ;;
              print (MsgQuerySource from_file) ;;;
              acc <- for_acc (zip (seq 1 (length qs)) qs)
                       (query_step env (length qs)) (seen, []) ;;
              ret (target_day env day w, acc.2))%py w0).2) =
            pacing (trace w) ++
              (qs ≫= λ q, [EvGet (google_news_rss_url env q (lit "ja") (lit "JP")); EvSleep]))
    as Hrest.
  { intros qs.
    rewrite (bind_ok _ _ _ _ _ (read_existing_set_eq _ w0)).
    rewrite bind_print, bind_gets, bind_print.
    match goal with |- pacing (trace (bind (for_acc ?l ?f ?a) _ ?w1).2) = _ =>
      pose proof (query_loop_pacing env (length qs) l a w1) as Hl;
      destruct (for_acc l f a w1) as [[acc|e] w2] eqn:Hloop
    end.
    - rewrite (bind_ok _ _ _ _ _ Hloop). cbn [snd ret] in *.
      by rewrite Hl, !pacing_print, Htr, bind_zip_snd.
    - rewrite (bind_raise _ _ _ _ _ Hloop). cbn [snd] in *.
      by rewrite Hl, !pacing_print, Htr, bind_zip_snd. }
  destruct (query_file w) as [[text|e]|] eqn:E.
  - apply Hrest.
  - by destruct (Hread e).
  - apply Hrest.
Qed.

(** X10: a run that gets to its end has made the request of each of its
    queries, one request per query and in the order of the queries, no
    retry and none left out, and has paused once after each request, before
    the next one, whatever the answers were. *)
Theorem one_request_per_query env day w d w' :
  collect_daily env day w = (Ok d, w') →
  pacing (trace w') =
    pacing (trace w) ++
      (queries_of (query_file w) ≫=
         λ q, [EvGet (google_news_rss_url env q (lit "ja") (lit "JP")); EvSleep]).
Proof.
  intros Hrun.
  assert (readable w) as Hread.
  { intros e E. destruct (collect_daily_eq env day w) as (w1 & _ & H).
    rewrite E in H. by rewrite H in Hrun. }
  pose proof (gather_pacing env day w Hread) as Hg.
  destruct (gather_eq env day w) as (w1 & _ & Heq).
  assert (gather env day w = (Ok (target_day env day w, batch_of env day w), w1)) as Hg1.
  { rewrite Heq. destruct (query_file w) as [[?|e]|] eqn:E; try done. by destruct (Hread e). }
  rewrite Hg1 in Hg. cbn [snd] in Hg.
  unfold collect_daily in Hrun. rewrite (bind_ok _ _ _ _ _ Hg1) in Hrun.
  cbn [fst snd] in Hrun. rewrite finish_eq in Hrun. injection Hrun as _ <-.
  rewrite pacing_print, <- Hg.
  destruct (batch_of env day w); [done|].
  cbn [trace emit set_data_dir]. rewrite pacing_app. cbn. by rewrite app_nil_r.
Qed.

Lemma one_request_per_query_witness :
  collect_daily env_AB None w_AB = (Ok 20240501%N, (collect_daily env_AB None w_AB).2) ∧
  pacing (trace (collect_daily env_AB None w_AB).2) =
    [EvGet (url_of (lit "A")); EvSleep; EvGet (url_of (lit "B")); EvSleep].
Proof.
  assert (collect_daily env_AB None w_AB =
            (Ok 20240501%N, (collect_daily env_AB None w_AB).2)) as Hrun
    by (vm_compute; reflexivity).
  split; [exact Hrun|].
  etrans; [exact (one_request_per_query env_AB None w_AB _ _ Hrun)|].
  vm_compute. reflexivity.
Defined.

(** ** The day store *)

(** X11: [append_rows], on the files that runs have left and when its
    writes complete, puts the header exactly when the file does not exist:
    a missing file becomes the header followed by the rows (the header
    alone when there are no rows); a file that is there gets the rows after
    its records, and no header.  The files of other days and the query file
    are not touched. *)
Theorem append_rows_file d rows w w' :
  reachable w →
  append_rows d rows w = (Ok tt, w') →
  data_dir w' !! d =
    Some (match data_dir w !! d with
          | None => Fields header :: ((λ r, Fields (row_cells r)) <$> rows)
          | Some records => records ++ ((λ r, Fields (row_cells r)) <$> rows)
          end) ∧
  (∀ d', d' ≠ d → data_dir w' !! d' = data_dir w !! d') ∧
  query_file w' = query_file w.
Proof.
  intros _. rewrite append_rows_eq. intros [= <-].
  cbn [data_dir set_data_dir emit query_file].
  split; [|split; [|done]].
  - rewrite lookup_insert_eq. unfold store_rows. by destruct (data_dir w !! d).
  - intros d' Hd. by rewrite lookup_insert_ne.
Qed.

Lemma append_rows_file_witness :
  reachable w_nolink_once ∧
  data_dir w_nolink_once !! 20240501%N =
    Some [ Fields header;
           Fields [lit "GoogleNews:Q"; lit "Q"; lit "T"; []; []; lit "2024-05-01T09:00:00"] ] ∧
  data_dir (append_rows 20240501%N [as_row (item_one (lit "U") (lit "L"))]
              w_nolink_once).2 !! 20240501%N =
    Some [ Fields header;
           Fields [lit "GoogleNews:Q"; lit "Q"; lit "T"; []; []; lit "2024-05-01T09:00:00"];
           Fields (row_one (lit "U") (lit "L")) ].
Proof.
  assert (reachable w_nolink_once) as Hr
    by (apply reachable_run, reachable_start; reflexivity).
  assert (append_rows 20240501%N [as_row (item_one (lit "U") (lit "L"))] w_nolink_once =
            (Ok tt, (append_rows 20240501%N [as_row (item_one (lit "U") (lit "L"))]
                       w_nolink_once).2)) as Happ
    by (by rewrite append_rows_eq).
  split; [exact Hr|]. split; [by vm_compute|].
  etrans; [exact (proj1 (append_rows_file _ _ _ _ Hr Happ))|].
  vm_compute. reflexivity.
Defined.

(** X12: the row handed to the writer.  The dictionary [as_row] builds has
    exactly the six columns of the header, so for the row of a record
    [append_rows] falls back on no default: it writes the six cells source,
    query, title, link, published and collected_jst, in this order, the
    source being the query after the tag of the feed. *)
Theorem as_row_cells it :
  dom (as_row it) = list_to_set header ∧
  (λ k, as_row it !! k) <$> header =
    Some <$> [ lit "GoogleNews:" ++ query it; query it; title it; link it;
               published it; collected_jst it ] ∧
  row_cells (as_row it) =
    [ lit "GoogleNews:" ++ query it; query it; title it; link it; published it;
      collected_jst it ].
Proof.
  split; [|split].
  - unfold as_row. rewrite dom_list_to_map_L. reflexivity.
  - destruct it. vm_compute. reflexivity.
  - apply row_cells_as_row.
Qed.

(** X13: after [append_rows] has written the rows of trimmed records with
    a title to a file that is missing or that runs have written, the index
    loaded from the file holds, when no field of the file's rows is over
    the reader's limit, what it held before and the key of every written
    record that has a link.  When the first row over the limit is one of
    those written, the index stops before it: it holds what it held before
    and the keys, with a link, of the records written before that one. *)
Theorem index_after_append d (items : list NewsItem) w w' :
  reachable w → Forall item_ok items →
  append_rows d (as_row <$> items) w = (Ok tt, w') →
  Forall row_short (day_rows w d) →
  (Forall (λ it, row_short (row_cells (as_row it))) items →
   read_existing_set d w' =
     (Ok (existing_set (data_dir w !! d)
          ∪ list_to_set (filter linked (item_key <$> items))), w')) ∧
  (∀ pre it post,
     items = pre ++ it :: post →
     Forall (λ it, row_short (row_cells (as_row it))) pre →
     ¬ row_short (row_cells (as_row it)) →
     read_existing_set d w' =
       (Ok (existing_set (data_dir w !! d)
            ∪ list_to_set (filter linked (item_key <$> pre))), w')).
Proof.
  intros Hreach Hitems Happ Hold. apply reachable_dir_ok in Hreach as Hok.
  rewrite append_rows_eq in Happ. injection Happ as <-.
  rewrite !read_existing_set_eq. cbn [data_dir set_data_dir emit].
  rewrite lookup_insert_eq.
  assert (∃ rows, match data_dir w !! d with
                  | None => rows = []
                  | Some records => records = Fields header :: (Fields <$> rows)
                  end ∧ Forall row_ok rows ∧ Forall row_short rows
                  ∧ existing_set (data_dir w !! d) =
                      list_to_set (filter linked (row_key <$> rows)))
    as (rows & Hrows & Hrok & Hrs & Hseen).
  { unfold day_rows in Hold. destruct (data_dir w !! d) as [records|] eqn:Hf.
    - destruct (Hok d records Hf) as (rows & -> & ? & ?). exists rows.
      change (Forall row_short (data_rows (Fields header :: (Fields <$> rows)))) in Hold.
      rewrite data_rows_fields in Hold.
      by rewrite existing_set_day_ok.
    - exists []. repeat split; try done. }
  rewrite (store_rows_fields _ _ rows Hrows), existing_set_written.
  2:{ apply Forall_app. split; [done|]. apply Forall_fmap.
      eapply Forall_impl; [exact Hitems|]. intros ?. apply row_ok_as_row. }
  rewrite (delivered_fields_app _ _ Hrs), fmap_app, filter_app, list_to_set_app_L, <- Hseen.
  split.
  - intros Hnew. rewrite delivered_fields by (by apply Forall_fmap).
    rewrite <- list_fmap_compose.
    by rewrite (list_fmap_ext _ item_key items) by (intros; apply row_key_as_row).
  - intros pre it post -> Hpre Hit.
    rewrite fmap_app, fmap_cons, delivered_fields_long by (done || by apply Forall_fmap).
    rewrite <- list_fmap_compose.
    by rewrite (list_fmap_ext _ item_key pre) by (intros; apply row_key_as_row).
Qed.

Lemma index_after_append_witness :
  reachable w_fresh ∧
  Forall item_ok [item_one (lit "T1") (lit "L1"); item_one (lit "T2") []] ∧
  Forall row_short (day_rows w_fresh 20240501%N) ∧
  Forall (λ it, row_short (row_cells (as_row it)))
    [item_one (lit "T1") (lit "L1"); item_one (lit "T2") []] ∧
  (read_existing_set 20240501%N
     (append_rows 20240501%N
        (as_row <$> [item_one (lit "T1") (lit "L1"); item_one (lit "T2") []]) w_fresh).2).1 =
    Ok {[ (lit "T1", lit "L1") ]}.
Proof.
  assert (reachable w_fresh) as Hr by (by apply reachable_start).
  assert (Forall item_ok [item_one (lit "T1") (lit "L1"); item_one (lit "T2") []]) as Hit
    by (repeat constructor; done).
  assert (Forall row_short (day_rows w_fresh 20240501%N)) as Hold by constructor.
  assert (Forall (λ it, row_short (row_cells (as_row it)))
            [item_one (lit "T1") (lit "L1"); item_one (lit "T2") []]) as Hnew
    by (repeat constructor).
  split; [exact Hr|]. split; [exact Hit|]. split; [exact Hold|]. split; [exact Hnew|].
  assert (append_rows 20240501%N
            (as_row <$> [item_one (lit "T1") (lit "L1"); item_one (lit "T2") []]) w_fresh =
          (Ok tt, (append_rows 20240501%N
                     (as_row <$> [item_one (lit "T1") (lit "L1"); item_one (lit "T2") []])
                     w_fresh).2)) as Happ
    by (by rewrite append_rows_eq).
  rewrite (proj1 (index_after_append 20240501%N _ w_fresh _ Hr Hit Happ Hold) Hnew).
  cbn [fst]. vm_compute. reflexivity.
Defined.

(** X16: a file that exists and is empty defeats the index for its first
    row: [append_rows] writes no header to it, so the next load takes the
    first row written for the field names and does not index it. *)
Theorem empty_file_first_row_not_indexed d it w :
  data_dir w !! d = Some [] →
  let w' := (append_rows d [as_row it] w).2 in
  data_dir w' !! d = Some [Fields (row_cells (as_row it))] ∧
  (read_existing_set d w').1 = Ok ∅.
Proof.
  intros Hd w'. subst w'. rewrite read_existing_set_eq, append_rows_eq.
  cbn [fst snd data_dir set_data_dir emit]. rewrite lookup_insert_eq, Hd.
  split; [done|]. unfold store_rows, existing_set, existing_keys.
  cbn [app fmap list_fmap delivered].
  by destruct (reader_next (Fields (row_cells (as_row it)))).
Qed.

Lemma empty_file_first_row_not_indexed_witness :
  (read_existing_set 20240501%N
     (append_rows 20240501%N
        [as_row (mkNewsItem (lit "Q") (lit "T1") (lit "L1") [] (lit "now"))]
        (mkWorld None {[ 20240501%N := [] ]} 0 0 [])).2).1 = Ok ∅.
Proof.
  exact (proj2 (empty_file_first_row_not_indexed 20240501%N
                  (mkNewsItem (lit "Q") (lit "T1") (lit "L1") [] (lit "now"))
                  (mkWorld None {[ 20240501%N := [] ]} 0 0 []) eq_refl)).
Defined.

(** X17: the reader's field limit, at its boundary.  In a file with the
    header and one row written for a record with a title and a link, the
    index holds the key of the row when the title has up to 131072
    characters, and is empty when it has more. *)
Theorem index_field_limit d w t l :
  data_dir w !! d = Some [Fields header; Fields (row_one t l)] →
  strip t = t → strip l = l → t ≠ [] → l ≠ [] →
  (N.of_nat (length l) ≤ 131072)%N →
  (read_existing_set d w).1 =
    Ok (if (N.of_nat (length t) <=? 131072)%N then {[ (t, l) ]} else ∅).
Proof.
  intros Hd Ht Hl Hne Hlne Hlen. rewrite read_existing_set_eq, Hd. cbn [fst]. f_equal.
  change [Fields header; Fields (row_one t l)]
    with (Fields header :: (Fields <$> [row_one t l])).
  rewrite existing_set_written by (repeat constructor; by apply row_one_ok).
  assert (forallb field_ok (row_one t l) = (N.of_nat (length t) <=? 131072)%N) as Hrow.
  { unfold row_one. cbn [forallb].
    change (field_ok (lit "GoogleNews:Q")) with true.
    change (field_ok (lit "Q")) with true.
    change (field_ok []) with true. change (field_ok (lit "now")) with true.
    assert (field_ok l = true) as -> by (by apply N.leb_le).
    cbn [andb]. by rewrite andb_true_r. }
  rewrite fmap_cons. cbn [fmap list_fmap delivered reader_next]. rewrite Hrow.
  destruct (N.of_nat (length t) <=? 131072)%N.
  - rewrite !fmap_cons, filter_cons, decide_True by done.
    cbn. by rewrite (right_id_L ∅ (∪)).
  - done.
Qed.

Lemma index_field_limit_witness :
  (read_existing_set 20240501%N
     (mkWorld None {[ 20240501%N := [Fields header; Fields (row_one (lit "T") (lit "L"))] ]}
        0 0 [])).1 = Ok {[ (lit "T", lit "L") ]}.
Proof.
  exact (index_field_limit 20240501%N
           (mkWorld None
              {[ 20240501%N := [Fields header; Fields (row_one (lit "T") (lit "L"))] ]}
              0 0 [])
           (lit "T") (lit "L") eq_refl eq_refl eq_refl ltac:(done) ltac:(done) ltac:(done)).
Defined.

(** ** Runs and the dataset *)

(** X14: the dataset that runs have written is append-only.  From a world
    that runs have led to, over any further sequence of runs and edits of
    the query file, a file that exists keeps existing and its records stay
    at the front of it, unchanged and in place. *)
Theorem dataset_append_only w w' :
  reachable w → rtc step w w' →
  ∀ d records, data_dir w !! d = Some records →
               ∃ more, data_dir w' !! d = Some (records ++ more).
Proof.
  intros _. induction 1 as [w|w1 w2 w3 Hstep _ IH]; intros d records Hd.
  - exists []. by rewrite app_nil_r.
  - assert (∃ more, data_dir w2 !! d = Some (records ++ more)) as (more & H2).
    { destruct Hstep as [env day w1|qf w1]; [|exists []; by rewrite app_nil_r].
      rewrite collect_daily_data_dir. unfold next_data_dir.
      destruct (query_file w1) as [[?|?]|];
        destruct (batch_of env day w1) as [|r rows]; cbv zeta;
        try (exists []; by rewrite app_nil_r).
      all: rewrite lookup_insert; case_decide as Heq;
        [subst d; rewrite Hd; unfold store_rows; eauto
        |exists []; by rewrite app_nil_r]. }
    destruct (IH d _ H2) as (more' & H3). exists (more ++ more').
    by rewrite app_assoc.
Qed.

Lemma dataset_append_only_witness :
  reachable w_nolink_once ∧ rtc step w_nolink_once w_nolink_twice ∧
  data_dir w_nolink_once !! 20240501%N =
    Some [ Fields header;
           Fields [lit "GoogleNews:Q"; lit "Q"; lit "T"; []; []; lit "2024-05-01T09:00:00"] ] ∧
  ∃ more,
    data_dir w_nolink_twice !! 20240501%N =
      Some ([ Fields header;
              Fields [lit "GoogleNews:Q"; lit "Q"; lit "T"; []; []; lit "2024-05-01T09:00:00"] ]
            ++ more).
Proof.
  assert (reachable w_nolink_once) as Hr
    by (apply reachable_run, reachable_start; reflexivity).
  assert (rtc step w_nolink_once w_nolink_twice) as Hs
    by (apply rtc_once, step_run).
  assert (data_dir w_nolink_once !! 20240501%N =
            Some [ Fields header;
                   Fields [lit "GoogleNews:Q"; lit "Q"; lit "T"; []; [];
                           lit "2024-05-01T09:00:00"] ]) as Hd
    by (vm_compute; reflexivity).
  split; [exact Hr|]. split; [exact Hs|]. split; [exact Hd|].
  exact (dataset_append_only _ _ Hr Hs _ _ Hd).
Defined.

(** X15: in a world that runs have led to, a run that can load its queries
    adds to the rows of its day the rows of the records it keeps, after
    the rows that were there; the records kept are candidates of the run,
    in the order in which the queries and the feeds gave them. *)
Theorem run_appends_kept_in_order env day w :
  reachable w → readable w →
  let d := target_day env day w in
  day_rows (collect_daily env day w).2 d =
    day_rows w d ++ ((λ it, row_cells (as_row it)) <$> kept_of env day w) ∧
  kept_of env day w `sublist_of` run_candidates env day w.
Proof.
  intros Hreach Hread d. split; [|apply fresh_sublist].
  pose proof (reachable_dir_ok w Hreach) as Hok.
  unfold day_rows. rewrite collect_daily_data_dir.
  assert (∃ rows, match data_dir w !! d with
                  | None => rows = []
                  | Some records => records = Fields header :: (Fields <$> rows)
                  end) as (rows & Hrows).
  { destruct (data_dir w !! d) as [records|] eqn:Hf.
    - destruct (Hok d records Hf) as (rows & -> & _). by exists rows.
    - by exists []. }
  assert (data_rows (default [] (data_dir w !! d)) = rows) as ->.
  { destruct (data_dir w !! d); subst; [apply data_rows_fields|done]. }
  assert (batch_of env day w = [] ∨ batch_of env day w ≠ []) as [Hnil|Hne]
    by (destruct (batch_of env day w); [by left|by right]).
  - rewrite (next_data_dir_nil _ _ _ Hnil).
    unfold batch_of in Hnil. apply fmap_nil_inv in Hnil. rewrite Hnil.
    rewrite app_nil_r. destruct (data_dir w !! d); subst; [apply data_rows_fields|done].
  - unfold d. rewrite (next_data_dir_lookup env day w Hread Hne). fold d.
    unfold batch_of. rewrite (store_rows_fields _ _ rows Hrows).
    cbn [default]. apply data_rows_fields.
Qed.

Lemma run_appends_kept_in_order_witness :
  reachable w_AB ∧ readable w_AB ∧
  day_rows (collect_daily env_AB None w_AB).2 20240501%N =
    [ [lit "GoogleNews:A"; lit "A"; lit "T1"; lit "L1"; lit "Mon"; lit "2024-05-01T09:00:01"];
      [lit "GoogleNews:A"; lit "A"; lit "T2"; lit "L2"; lit "Tue"; lit "2024-05-01T09:00:02"] ].
Proof.
  assert (reachable w_AB) as Hr by (by apply reachable_start).
  assert (readable w_AB) as Hq by (by intros e).
  split; [exact Hr|]. split; [exact Hq|].
  etrans; [exact (proj1 (run_appends_kept_in_order env_AB None w_AB Hr Hq))|].
  vm_compute. reflexivity.
Defined.
